(** * Gesture-driven particle scene: a shallow embedding

    The development follows the TypeScript sources file by file:
    [types.ts], [constants.ts], [App.tsx], [components/HandTracker.tsx]
    and [components/Scene3D.tsx].

    JavaScript numbers are modelled as real numbers: arithmetic is exact,
    rounding, NaN and the infinities are not represented.  Comparisons
    are booleans obtained from the decidable order of [R]. *)

From Stdlib Require Import Reals Lra Lia ZArith List Bool String.
Import ListNotations.
Open Scope R_scope.

(** ** JavaScript numbers and [Math] *)

Module JS.

Definition gt (x y : R) : bool := if Rgt_dec x y then true else false.
Definition lt (x y : R) : bool := if Rlt_dec x y then true else false.

(** [Math.max] *)
Definition Math_max (x y : R) : R := Rmax x y.

(** [Math.pow] with a natural exponent *)
Definition Math_pow (x : R) (n : nat) : R := x ^ n.

(** Truncation toward zero, the quotient that [%] uses. *)
Definition trunc (x : R) : Z :=
  if Rle_dec 0 x then Int_part x else (- Int_part (- x))%Z.

(** [a % b]: the remainder has the sign of the dividend. *)
Definition rem (a b : R) : R := a - b * IZR (trunc (a / b)).

(** [Math.atan2(y, x)] *)
Definition Math_atan2 (y x : R) : R :=
  if Rlt_dec 0 x then atan (y / x)
  else if Rlt_dec x 0 then
    (if Rle_dec 0 y then atan (y / x) + PI else atan (y / x) - PI)
  else if Rlt_dec 0 y then PI / 2
  else if Rlt_dec y 0 then - (PI / 2)
  else 0.

(** [Math.random()]: the generator is a sequence of draws; one call
    returns the head and leaves the rest. *)
Definition Rng := nat -> R.

Definition Math_random (g : Rng) : R * Rng := (g 0%nat, fun n => g (S n)).

Definition unit_draws (g : Rng) : Prop := forall n, 0 <= g n < 1.

End JS.

(** ** types.ts *)

Inductive TreeState := CLOSED | SCATTERED.

Definition TreeState_eqb (a b : TreeState) : bool :=
  match a, b with
  | CLOSED, CLOSED | SCATTERED, SCATTERED => true
  | _, _ => false
  end.

Record Vec2 := mkVec2 { v2x : R; v2y : R }.
Record Vec3 := mkVec3 { vx : R; vy : R; vz : R }.

Record HandData := mkHandData {
  isOpen : bool;
  rotation : Vec3;
  position : Vec2;
  detected : bool
}.

Inductive OrnamentShape := sphere | box | cone.

Record OrnamentData := mkOrnamentData {
  initialPos : Vec3;
  treePos : Vec3;
  scatterPos : Vec3;
  type_ : OrnamentShape;
  color : string;
  size : R
}.

(** ** constants.ts *)

Module COLORS.
Definition MATTE_GREEN : string := "#1a3a2a".
Definition METALLIC_GOLD : string := "#ffcc33".
Definition CHRISTMAS_RED : string := "#990000".
End COLORS.

Definition ORNAMENT_COUNT : nat := 1200.
Definition TREE_HEIGHT : R := 14.
Definition TREE_RADIUS : R := 6.

(** ** App.tsx *)

Module App.

(** Initial [useState] values. *)
Definition initialHandData : HandData :=
  mkHandData false (mkVec3 0 0 0) (mkVec2 0 0) false.

Definition initialTreeState : TreeState := CLOSED.

(** The body of the transition effect: the tree state that holds once the
    effect has run for [handData] from [treeState].  When no branch calls
    [setTreeState] the state is left as it is. *)
Definition effect (handData : HandData) (treeState : TreeState) : TreeState :=
  if detected handData then
    if isOpen handData && TreeState_eqb treeState CLOSED then SCATTERED
    else if negb (isOpen handData) && TreeState_eqb treeState SCATTERED
         then CLOSED
         else treeState
  else treeState.

(** [treeState] is a dependency of the effect, so a change of state runs
    the effect once more with the same hand data. *)
Definition onHandUpdate (handData : HandData) (treeState : TreeState)
  : TreeState :=
  let s := effect handData treeState in
  if TreeState_eqb s treeState then s else effect handData s.

(** A stream of gesture signals, delivered in callback order. *)
Definition run (signals : list HandData) (treeState : TreeState) : TreeState :=
  fold_left (fun s h => onHandUpdate h s) signals treeState.

End App.

(** ** components/HandTracker.tsx *)

Module HandTracker.

(** One detector landmark. *)
Record Landmark := mkLandmark { x : R; y : R; z : R }.

(** The detector result; [multiHandLandmarks] may be undefined. *)
Record Results := mkResults {
  multiHandLandmarks : option (list (list Landmark))
}.

(** A computation either completes or raises a [TypeError]. *)
Inductive Completion (A : Type) : Type :=
| Normal (a : A)
| TypeError.
Arguments Normal {A} a.
Arguments TypeError {A}.

Definition bind {A B} (c : Completion A) (k : A -> Completion B)
  : Completion B :=
  match c with
  | Normal a => k a
  | TypeError => TypeError
  end.

Notation "v <- c ;; k" := (bind c (fun v => k))
  (at level 61, c at next level, right associativity).

(** [a[idx]]: [undefined] past the end of the array. *)
Definition get {A} (a : list A) (idx : nat) : option A := nth_error a idx.

(** [o.f]: reading a property of [undefined] raises. *)
Definition prop (o : option Landmark) (f : Landmark -> R) : Completion R :=
  match o with
  | Some l => Normal (f l)
  | None => TypeError
  end.

(** The [reduce] callback that sums the fingertip distances. *)
Definition addDist (wrist : option Landmark) (acc : Completion R)
  (tip : option Landmark) : Completion R :=
  a <- acc ;;
  tx <- prop tip x ;; wx <- prop wrist x ;;
  let dx := tx - wx in
  ty <- prop tip y ;; wy <- prop wrist y ;;
  let dy := ty - wy in
  Normal (a + sqrt (dx * dx + dy * dy)).

Definition fingerTips (landmarks : list Landmark) : list (option Landmark) :=
  map (fun idx => get landmarks idx) [8; 12; 16; 20]%nat.

Definition avgDist (landmarks : list Landmark) : Completion R :=
  let wrist := get landmarks 0 in
  total <- fold_left (addDist wrist) (fingerTips landmarks) (Normal 0) ;;
  Normal (total / INR (List.length (fingerTips landmarks))).

(** The branch taken when a hand is present. *)
Definition classify (landmarks : list Landmark) : Completion HandData :=
  let wrist := get landmarks 0 in
  avg <- avgDist landmarks ;;
  let isOpen := JS.gt avg 0.35 in
  let middleBase := get landmarks 9 in
  mx <- prop middleBase x ;; wx <- prop wrist x ;;
  let dx := mx - wx in
  my <- prop middleBase y ;; wy <- prop wrist y ;;
  let dy := my - wy in
  let angle := JS.Math_atan2 dy dx in
  px <- prop (get landmarks 9) x ;;
  py <- prop (get landmarks 9) y ;;
  Normal (mkHandData isOpen (mkVec3 (dy * 2) (dx * 2) angle) (mkVec2 px py) true).

Definition notDetected : HandData :=
  mkHandData false (mkVec3 0 0 0) (mkVec2 0 0) false.

(** The [hands.onResults] callback.  [canvasCtx] tells whether the 2D
    context of the preview canvas is available.  The result is the value
    handed to [onHandUpdate], if any. *)
Definition onResults (canvasCtx : bool) (results : Results)
  : Completion (option HandData) :=
  if negb canvasCtx then Normal None
  else
    match multiHandLandmarks results with
    | Some (landmarks :: _) =>
        h <- classify landmarks ;; Normal (Some h)
    | Some [] | None => Normal (Some notDetected)
    end.

End HandTracker.

(** ** components/Scene3D.tsx

    Transforms are modelled, colours and textures are not: no colour
    written to an instance is ever read back by the code.  Every frame
    callback is modelled for a mounted mesh; before mounting the callback
    returns at once. *)

Module Scene3D.

Definition lerp (a b t : R) : R := a + (b - a) * t.
Definition TREE_ROTATION_SPEED : R := 0.3.

(** *** The parts of three.js the component uses *)

(** Orientations are kept symbolic: the identity, the result of
    [rotation.set], or the result of [lookAt] from an eye point. *)
Inductive Quaternion :=
| QIdentity
| QEuler (ex ey ez : R)
| QLookAt (eye target : Vec3).

(** [matrix.compose(position, quaternion, scale)] *)
Record Matrix4 := compose {
  m_position : Vec3;
  m_quaternion : Quaternion;
  m_scale : Vec3
}.

Record Object3D := mkObject3D {
  obj_position : Vec3;
  obj_quaternion : Quaternion;
  obj_scale : Vec3
}.

(** [new THREE.Object3D()] *)
Definition newObject3D : Object3D :=
  mkObject3D (mkVec3 0 0 0) QIdentity (mkVec3 1 1 1).

(** [o.scale.setScalar(s)] *)
Definition setScalar (o : Object3D) (s : R) : Object3D :=
  mkObject3D (obj_position o) (obj_quaternion o) (mkVec3 s s s).

(** [o.updateMatrix()] followed by reading [o.matrix] *)
Definition updateMatrix (o : Object3D) : Matrix4 :=
  compose (obj_position o) (obj_quaternion o) (obj_scale o).

Record Camera := mkCamera {
  cam_position : Vec3;
  cam_quaternion : Quaternion
}.

(** The root state handed to every [useFrame] callback. *)
Record RootState := mkRootState {
  elapsedTime : R;
  camera : Camera
}.

(** *** TreeTopStar *)

Module TreeTopStar.

Record Group := mkGroup {
  rotation_y : R;
  group_scale : Vec3;
  material_opacity : R
}.

Definition initialOpacity : R := 1.

(** The frame callback: the new value of [opacityRef] and the group. *)
Definition frame (treeState : TreeState) (state : RootState) (delta : R)
  (opacityRef : R) : R * Group :=
  let angleOffset := elapsedTime state * TREE_ROTATION_SPEED in
  let targetOpacity := if TreeState_eqb treeState CLOSED then 1 else 0 in
  let opacity := lerp opacityRef targetOpacity (delta * 3) in
  let s := JS.Math_max 0.001 opacity in
  (opacity, mkGroup angleOffset (mkVec3 s s s) opacity).

End TreeTopStar.

(** *** BaseRipple *)

Module BaseRipple.

Definition ringsCount : nat := 6.
Definition particlesPerRing : nat := 450.
Definition totalCount : nat := ringsCount * particlesPerRing.
Definition cycleDuration : R := 6.5.
Definition staggerTime : R := 0.9.

Record Ripple := mkRipple {
  ringIndex : nat;
  angle : R;
  randomOffset : R;
  speed : R
}.

(** The [map] callback of the seed data, for index [i]. *)
Definition seed (i : nat) (g : JS.Rng) : Ripple * JS.Rng :=
  let ringIndex := (i / particlesPerRing)%nat in
  let particleInRingIndex := (i mod particlesPerRing)%nat in
  let (r1, g1) := JS.Math_random g in
  let (r2, g2) := JS.Math_random g1 in
  (mkRipple ringIndex
     (INR particleInRingIndex / INR particlesPerRing * PI * 2)
     (r1 * 0.5)
     (0.8 + r2 * 0.4),
   g2).

Fixpoint seeds (indices : list nat) (g : JS.Rng) : list Ripple * JS.Rng :=
  match indices with
  | [] => ([], g)
  | i :: rest =>
      let (r, g1) := seed i g in
      let (rs, g2) := seeds rest g1 in
      (r :: rs, g2)
  end.

Definition rippleData (g : JS.Rng) : list Ripple * JS.Rng :=
  seeds (seq 0 totalCount) g.

(** One pass of the [forEach] body: the scratch object as it stands when
    its matrix is stored for the instance. *)
Definition body (time : R) (isClosed : bool) (r : Ripple) (dummy : Object3D)
  : Object3D :=
  let baseRadius := if isClosed then 28 else 55 in
  let startTime := INR (ringIndex r) * staggerTime in
  let cycleTime := JS.rem (time - startTime) cycleDuration in
  if JS.lt time startTime then setScalar dummy 0
  else
    let activeWindow := 3.0 in
    let progress := cycleTime / activeWindow in
    if JS.gt progress 1.0 || JS.lt progress 0 then setScalar dummy 0
    else
      let easeOutQuart := 1 - JS.Math_pow (1 - progress) 4 in
      let currentRadius := easeOutQuart * baseRadius + randomOffset r * 10 in
      let opacity := JS.Math_max 0 (1 - progress) in
      let x := cos (angle r) * currentRadius in
      let z := sin (angle r) * currentRadius in
      let y := - TREE_HEIGHT / 2 - 0.5 in
      let size := (0.08 + randomOffset r * 0.15) * opacity in
      mkObject3D (mkVec3 x y z) (QEuler (- PI / 2) 0 0) (mkVec3 size size size).

(** The [forEach]: one stored matrix per instance, in index order, and
    the scratch object left behind. *)
Fixpoint loop (time : R) (isClosed : bool) (data : list Ripple)
  (dummy : Object3D) : list Matrix4 * Object3D :=
  match data with
  | [] => ([], dummy)
  | r :: rest =>
      let d := body time isClosed r dummy in
      let (ms, d') := loop time isClosed rest d in
      (updateMatrix d :: ms, d')
  end.

Definition frame (treeState : TreeState) (state : RootState)
  (data : list Ripple) (dummy : Object3D) : list Matrix4 * Object3D :=
  let time := elapsedTime state in
  let isClosed := TreeState_eqb treeState CLOSED in
  loop time isClosed data dummy.

End BaseRipple.

(** *** MeteorShower *)

Module MeteorShower.

Definition count : nat := 300.

Record Meteor := mkMeteor {
  phase : R;
  speed : R;
  yOffset : R;
  radiusOffset : R;
  size : R;
  verticalSpeed : R
}.

Definition seed (g : JS.Rng) : Meteor * JS.Rng :=
  let (r1, g1) := JS.Math_random g in
  let (r2, g2) := JS.Math_random g1 in
  let (r3, g3) := JS.Math_random g2 in
  let (r4, g4) := JS.Math_random g3 in
  let (r5, g5) := JS.Math_random g4 in
  let (r6, g6) := JS.Math_random g5 in
  (mkMeteor (r1 * PI * 2) (0.3 + r2 * 1.2) ((r3 - 0.5) * TREE_HEIGHT * 1.2)
     (0.5 + r4 * 3) (0.04 + r5 * 0.08) ((r6 - 0.5) * 0.2),
   g6).

Fixpoint seeds (n : nat) (g : JS.Rng) : list Meteor * JS.Rng :=
  match n with
  | O => ([], g)
  | S k =>
      let (m, g1) := seed g in
      let (ms, g2) := seeds k g1 in
      (m :: ms, g2)
  end.

Definition meteorData (g : JS.Rng) : list Meteor * JS.Rng := seeds count g.

(** The [forEach] body.  Position, orientation and scale of the scratch
    object are all written before the matrix is stored, so the stored
    matrix does not depend on what the object held before. *)
Definition body (time : R) (isClosed : bool) (cameraQuaternion : Quaternion)
  (m : Meteor) : Matrix4 :=
  let t := time * speed m + phase m in
  let verticalDrift := sin (time * 0.5 + phase m) * 2 in
  let orbitRadius :=
    if isClosed then TREE_RADIUS * 1.1 + radiusOffset m else 25 in
  let x := cos t * orbitRadius in
  let z := sin t * orbitRadius in
  let y := yOffset m + verticalDrift in
  let pulse := 1 + sin (time * 3 + phase m) * 0.3 in
  let s := size m * pulse * (if isClosed then 1 else 0.3) in
  compose (mkVec3 x y z) cameraQuaternion (mkVec3 s s s).

Definition frame (treeState : TreeState) (state : RootState)
  (data : list Meteor) : list Matrix4 :=
  let time := elapsedTime state in
  let isClosed := TreeState_eqb treeState CLOSED in
  map (body time isClosed (cam_quaternion (camera state))) data.

End MeteorShower.

(** *** Snowfall *)

Module Snowfall.

Definition emojiCount : nat := 100.

Record Flake := mkFlake {
  x : R;
  y : R;
  z : R;
  speed : R;
  offset : R;
  size : R;
  rotSpeed : R
}.

Definition seed (g : JS.Rng) : Flake * JS.Rng :=
  let (r1, g1) := JS.Math_random g in
  let (r2, g2) := JS.Math_random g1 in
  let (r3, g3) := JS.Math_random g2 in
  let (r4, g4) := JS.Math_random g3 in
  let (r5, g5) := JS.Math_random g4 in
  let (r6, g6) := JS.Math_random g5 in
  let (r7, g7) := JS.Math_random g6 in
  (mkFlake ((r1 - 0.5) * 60) (r2 * 50 - 15) ((r3 - 0.5) * 60)
     (0.3 + r4 * 1.2) (r5 * PI * 2) (0.08 + r6 * 0.12) ((r7 - 0.5) * 2),
   g7).

Fixpoint seeds (n : nat) (g : JS.Rng) : list Flake * JS.Rng :=
  match n with
  | O => ([], g)
  | S k =>
      let (f, g1) := seed g in
      let (fs, g2) := seeds k g1 in
      (f :: fs, g2)
  end.

Definition emojiData (g : JS.Rng) : list Flake * JS.Rng := seeds emojiCount g.

(** The mutation of the flake record in the loop body: the fall, then
    the respawn test. *)
Definition fall (delta : R) (s : Flake) (g : JS.Rng) : Flake * JS.Rng :=
  let y1 := y s - speed s * delta * 2 in
  if JS.lt y1 (-20) then
    let (r1, g1) := JS.Math_random g in
    let (r2, g2) := JS.Math_random g1 in
    (mkFlake ((r1 - 0.5) * 60) 30 ((r2 - 0.5) * 60)
       (speed s) (offset s) (size s) (rotSpeed s),
     g2)
  else
    (mkFlake (x s) y1 (z s) (speed s) (offset s) (size s) (rotSpeed s), g).

(** The matrix stored for the flake.  The increment of [rotation.z] is
    overwritten by the copy of the camera quaternion that follows it. *)
Definition place (state : RootState) (s : Flake) : Matrix4 :=
  let xOffset := sin (elapsedTime state * 0.4 + offset s) * 0.1 in
  let zOffset := cos (elapsedTime state * 0.3 + offset s) * 0.1 in
  compose (mkVec3 (x s + xOffset) (y s) (z s + zOffset))
    (cam_quaternion (camera state))
    (mkVec3 (size s * 2) (size s * 2) (size s * 2)).

(** The [for] loop: the mutated records, the stored matrices and the
    generator after the draws of the pass. *)
Fixpoint loop (state : RootState) (delta : R) (data : list Flake)
  (g : JS.Rng) : list Flake * list Matrix4 * JS.Rng :=
  match data with
  | [] => ([], [], g)
  | s :: rest =>
      let (s', g1) := fall delta s g in
      let '(ss, ms, g2) := loop state delta rest g1 in
      (s' :: ss, place state s' :: ms, g2)
  end.

Definition frame (state : RootState) (delta : R) (data : list Flake)
  (g : JS.Rng) : list Flake * list Matrix4 * JS.Rng :=
  loop state delta data g.

End Snowfall.

(** *** EmojiLayer *)

Module EmojiLayer.

(** [data.map(o => [...o.treePos])] *)
Definition initialPositions (data : list OrnamentData) : list Vec3 :=
  map treePos data.

(** The mutable state of one layer: the interpolated positions and the
    scratch object, which is one object shared by all instances and all
    frames of the layer. *)
Record State := mkState {
  currentPositions : list Vec3;
  dummy : Object3D
}.

Definition initialState (data : list OrnamentData) : State :=
  mkState (initialPositions data) newObject3D.

Definition target (treeState : TreeState) (o : OrnamentData) : Vec3 :=
  if TreeState_eqb treeState CLOSED then treePos o else scatterPos o.

(** The three assignments to [currentPositions.current[i]]. *)
Definition move (t : R) (cur tgt : Vec3) : Vec3 :=
  mkVec3 (lerp (vx cur) (vx tgt) t)
         (lerp (vy cur) (vy tgt) t)
         (lerp (vz cur) (vz tgt) t).

(** The displayed position: jitter when scattered, rotation about the
    vertical axis otherwise. *)
Definition display (treeState : TreeState) (time : R) (i : nat) (p : Vec3)
  : Vec3 :=
  let angleOffset := time * TREE_ROTATION_SPEED in
  if TreeState_eqb treeState SCATTERED then
    mkVec3 (vx p + sin (time * 0.4 + INR i) * 0.015)
           (vy p + cos (time * 0.5 + INR i) * 0.015)
           (vz p + sin (time * 0.6 + INR i) * 0.015)
  else
    let s := sin angleOffset in
    let c := cos angleOffset in
    let rx := vx p * c - vz p * s in
    let rz := vx p * s + vz p * c in
    mkVec3 rx (vy p) rz.

(** The loop body for instance [i]: the new interpolated position and the
    scratch object as it stands when its matrix is stored. *)
Definition body (treeState : TreeState) (state : RootState) (delta : R)
  (i : nat) (o : OrnamentData) (cur : Vec3) (d : Object3D)
  : Vec3 * Object3D :=
  let t := delta * 2.5 in
  let cur' := move t cur (target treeState o) in
  let p := display treeState (elapsedTime state) i cur' in
  let s := if TreeState_eqb treeState CLOSED then size o else size o * 2.0 in
  let sc := lerp (vx (obj_scale d)) s t in
  (cur', mkObject3D p (cam_quaternion (camera state)) (mkVec3 sc sc sc)).

(** The [for] loop from index [i] on.  The ref holds one position per
    ornament (see [initialPositions]) and the loop keeps it so; the loop
    ends where either array ends. *)
Fixpoint loop (treeState : TreeState) (state : RootState) (delta : R)
  (i : nat) (data : list OrnamentData) (cur : list Vec3) (d : Object3D)
  : list Vec3 * list Matrix4 * Object3D :=
  match data, cur with
  | o :: data', c :: cur' =>
      let (c1, d1) := body treeState state delta i o c d in
      let '(cs, ms, d2) := loop treeState state delta (S i) data' cur' d1 in
      (c1 :: cs, updateMatrix d1 :: ms, d2)
  | _, _ => ([], [], d)
  end.

(** The frame callback: the new layer state and the instance matrices. *)
Definition frame (treeState : TreeState) (state : RootState) (delta : R)
  (data : list OrnamentData) (st : State) : State * list Matrix4 :=
  let '(cs, ms, d) :=
    loop treeState state delta 0 data (currentPositions st) (dummy st) in
  (mkState cs d, ms).

(** Successive frames with the same tree state and the same [delta]; the
    states of the root (clock, camera) may differ from frame to frame. *)
Fixpoint frames (treeState : TreeState) (delta : R)
  (states : list RootState) (data : list OrnamentData) (st : State) : State :=
  match states with
  | [] => st
  | state :: rest =>
      frames treeState delta rest data
        (fst (frame treeState state delta data st))
  end.

End EmojiLayer.

(** *** CameraController *)

Module CameraController.

(** [targetCameraRotation]: [x] is the pitch proxy, [y] the yaw. *)
Definition initialTarget : Vec2 := mkVec2 0 0.

Definition frame (handData : HandData) (delta : R)
  (targetCameraRotation : Vec2) (cam : Camera) : Vec2 * Camera :=
  let t := delta * 3 in
  let tgt :=
    if detected handData then
      mkVec2 ((v2y (position handData) - 0.5) * PI * 0.5)
             ((v2x (position handData) - 0.5) * PI)
    else targetCameraRotation in
  let dist := 32 in
  let px := lerp (vx (cam_position cam)) (dist * sin (v2y tgt)) t in
  let pz := lerp (vz (cam_position cam)) (dist * cos (v2y tgt)) t in
  let py := lerp (vy (cam_position cam)) (v2x tgt * 20 + 7) t in
  let pos := mkVec3 px py pz in
  (tgt, mkCamera pos (QLookAt pos (mkVec3 0 0 0))).

End CameraController.

(** *** MerryChristmasText *)

Module MerryChristmasText.

Definition canvasWidth : nat := 800.
Definition canvasHeight : nat := 200.
Definition step : nat := 4.
Definition scale : R := 0.035.

Record Particle := mkParticle { x : R; y : R; z : R; id : R }.

(** The bytes returned by [getImageData]: four per pixel, by index.  What
    the rasterizer draws is not modelled, the bytes are an input. *)
Definition ImageData := nat -> nat.

(** The values of [for (let v = 0; v < limit; v += step)]. *)
Definition steps (limit : nat) : list nat :=
  map (fun k => (k * step)%nat) (seq 0 ((limit + step - 1) / step)).

(** The body of the inner loop at pixel [(px, py)]. *)
Definition sample (imageData : ImageData) (py px : nat) (g : JS.Rng)
  : list Particle * JS.Rng :=
  let index := ((py * canvasWidth + px) * 4)%nat in
  if (128 <? imageData index)%nat then
    let (r, g1) := JS.Math_random g in
    ([mkParticle ((INR px - INR canvasWidth / 2) * scale)
        ((INR canvasHeight / 2 - INR py) * scale) 0 r], g1)
  else ([], g).

Fixpoint row (imageData : ImageData) (py : nat) (xs : list nat) (g : JS.Rng)
  : list Particle * JS.Rng :=
  match xs with
  | [] => ([], g)
  | px :: rest =>
      let (p, g1) := sample imageData py px g in
      let (ps, g2) := row imageData py rest g1 in
      (p ++ ps, g2)
  end.

Fixpoint rows (imageData : ImageData) (ys xs : list nat) (g : JS.Rng)
  : list Particle * JS.Rng :=
  match ys with
  | [] => ([], g)
  | py :: rest =>
      let (p, g1) := row imageData py xs g in
      let (ps, g2) := rows imageData rest xs g1 in
      (p ++ ps, g2)
  end.

(** The [useMemo] that samples the text; [None] is a canvas without a 2D
    context. *)
Definition particles (ctx : option ImageData) (g : JS.Rng)
  : list Particle * JS.Rng :=
  match ctx with
  | None => ([], g)
  | Some imageData =>
      rows imageData (steps canvasHeight) (steps canvasWidth) g
  end.

Definition sweepRange : R := 16.
Definition sweepSpeed : R := 4.0.

Definition sweepX (time : R) : R :=
  JS.rem (time * sweepSpeed) sweepRange - sweepRange / 2.

Definition sweepIntensity (isScattered : bool) (time : R) (p : Particle) : R :=
  if isScattered then
    let dist := Rabs (x p - sweepX time) in
    JS.Math_pow (JS.Math_max 0 (1.0 - dist / 2.0)) 4 * 8.0
  else 0.

(** The [forEach] body.  Position and scale of the scratch object are
    written for every particle and its orientation never is, so the
    stored matrix has the orientation the object was created with. *)
Definition body (time : R) (isScattered : bool) (p : Particle) : Matrix4 :=
  let offsetX := sin (time * 0.5 + id p * 10) * 0.05 in
  let offsetY := cos (time * 0.7 + id p * 10) * 0.05 in
  let scaleBase := 0.06 + sin (time * 2 + id p * 20) * 0.015 in
  let intensity := sweepIntensity isScattered time p in
  let s := scaleBase * (1.0 + intensity * 0.1) in
  compose (mkVec3 (x p + offsetX) (y p + offsetY) (z p)) QIdentity
    (mkVec3 s s s).

(** The frame callback: the transform of the mesh itself and the
    instance matrices. *)
Definition frame (treeState : TreeState) (state : RootState)
  (data : list Particle) : Matrix4 * list Matrix4 :=
  let time := elapsedTime state in
  let isScattered := TreeState_eqb treeState SCATTERED in
  (compose (mkVec3 0 4.5 6.0) (cam_quaternion (camera state)) (mkVec3 1 1 1),
   map (body time isScattered) data).

End MerryChristmasText.

(** *** The ornament sets of Scene3D *)

Module OrnamentSets.

Inductive Kind := tree | gift | candy | bell | snowflake | star.

Record Sets := mkSets {
  treeSet : list OrnamentData;
  giftSet : list OrnamentData;
  candySet : list OrnamentData;
  bellSet : list OrnamentData;
  snowflakeSet : list OrnamentData;
  starSet : list OrnamentData
}.

Definition empty : Sets := mkSets [] [] [] [] [] [].

(** [sets[type].push(o)] *)
Definition push (sets : Sets) (k : Kind) (o : OrnamentData) : Sets :=
  match k with
  | tree => mkSets (treeSet sets ++ [o]) (giftSet sets) (candySet sets)
              (bellSet sets) (snowflakeSet sets) (starSet sets)
  | gift => mkSets (treeSet sets) (giftSet sets ++ [o]) (candySet sets)
              (bellSet sets) (snowflakeSet sets) (starSet sets)
  | candy => mkSets (treeSet sets) (giftSet sets) (candySet sets ++ [o])
               (bellSet sets) (snowflakeSet sets) (starSet sets)
  | bell => mkSets (treeSet sets) (giftSet sets) (candySet sets)
              (bellSet sets ++ [o]) (snowflakeSet sets) (starSet sets)
  | snowflake => mkSets (treeSet sets) (giftSet sets) (candySet sets)
                   (bellSet sets) (snowflakeSet sets ++ [o]) (starSet sets)
  | star => mkSets (treeSet sets) (giftSet sets) (candySet sets)
              (bellSet sets) (snowflakeSet sets) (starSet sets ++ [o])
  end.

(** The layers in the order of [Object.entries]. *)
Definition entries (sets : Sets) : list (Kind * list OrnamentData) :=
  [(tree, treeSet sets); (gift, giftSet sets); (candy, candySet sets);
   (bell, bellSet sets); (snowflake, snowflakeSet sets); (star, starSet sets)].

(** One pass of the generating loop: the set the ornament goes to and the
    ornament. *)
Definition make (g : JS.Rng) : Kind * OrnamentData * JS.Rng :=
  let (r1, g1) := JS.Math_random g in
  let h := r1 * TREE_HEIGHT in
  let ratio := 1 - h / TREE_HEIGHT in
  let (r2, g2) := JS.Math_random g1 in
  let r := ratio * TREE_RADIUS * (0.8 + r2 * 0.4) in
  let (r3, g3) := JS.Math_random g2 in
  let theta := r3 * PI * 2 in
  let treePos := mkVec3 (r * cos theta) (h - TREE_HEIGHT / 2) (r * sin theta) in
  let (r4, g4) := JS.Math_random g3 in
  let scatterR := 15 + r4 * 25 in
  let (r5, g5) := JS.Math_random g4 in
  let sTheta := r5 * PI * 2 in
  let (r6, g6) := JS.Math_random g5 in
  let sPhi := r6 * PI in
  let scatterPos :=
    mkVec3 (scatterR * sin sPhi * cos sTheta)
           (scatterR * sin sPhi * sin sTheta)
           (scatterR * cos sPhi) in
  let (rand, g7) := JS.Math_random g6 in
  let (r8, g8) := JS.Math_random g7 in
  let size := 0.5 + r8 * 0.4 in
  let '(type, size', color) :=
    if JS.lt rand 0.6 then (tree, size * 1.2, COLORS.MATTE_GREEN)
    else if JS.lt rand 0.75 then (gift, size, COLORS.CHRISTMAS_RED)
    else if JS.lt rand 0.85 then (candy, size, COLORS.MATTE_GREEN)
    else if JS.lt rand 0.92 then (bell, size, COLORS.METALLIC_GOLD)
    else (snowflake, size, COLORS.MATTE_GREEN) in
  (type, mkOrnamentData treePos treePos scatterPos sphere color size', g8).

(** [n] passes of the loop. *)
Fixpoint loop (n : nat) (g : JS.Rng) (sets : Sets) : Sets * JS.Rng :=
  match n with
  | O => (sets, g)
  | S k =>
      let '(type, o, g1) := make g in
      loop k g1 (push sets type o)
  end.

Definition ornamentSets (g : JS.Rng) : Sets * JS.Rng :=
  loop ORNAMENT_COUNT g empty.

End OrnamentSets.

(** *** Scene3D: the frame callbacks of one render frame *)

Record Scene := mkScene {
  targetCameraRotation : Vec2;
  sceneCamera : Camera;
  random : JS.Rng;
  snowData : list Snowfall.Flake;
  snowMesh : list Matrix4;
  meteorData : list MeteorShower.Meteor;
  meteorMesh : list Matrix4;
  rippleData : list BaseRipple.Ripple;
  rippleDummy : Object3D;
  rippleMesh : list Matrix4;
  ornamentSets : list (list OrnamentData * EmojiLayer.State * list Matrix4);
  starOpacity : R;
  starGroup : TreeTopStar.Group
}.

Definition layerFrame (treeState : TreeState) (state : RootState) (delta : R)
  (l : list OrnamentData * EmojiLayer.State * list Matrix4)
  : list OrnamentData * EmojiLayer.State * list Matrix4 :=
  let '(data, st, _) := l in
  let (st', ms) := EmojiLayer.frame treeState state delta data st in
  (data, st', ms).

(** The callback of [CameraController]. *)
Definition cameraFrame (handData : HandData) (delta : R) (sc : Scene)
  : Scene :=
  let (tgt, cam) :=
    CameraController.frame handData delta
      (targetCameraRotation sc) (sceneCamera sc) in
  mkScene tgt cam (random sc) (snowData sc) (snowMesh sc)
    (meteorData sc) (meteorMesh sc)
    (rippleData sc) (rippleDummy sc) (rippleMesh sc)
    (ornamentSets sc) (starOpacity sc) (starGroup sc).

(** The callbacks of the populations, in the order of the components:
    Snowfall, MeteorShower, BaseRipple, the EmojiLayers, TreeTopStar. *)
Definition populationFrames (treeState : TreeState) (time delta : R)
  (sc : Scene) : Scene :=
  let state := mkRootState time (sceneCamera sc) in
  let '(snow, snowM, g) :=
    Snowfall.frame state delta (snowData sc) (random sc) in
  let meteorM := MeteorShower.frame treeState state (meteorData sc) in
  let (rippleM, rippleD) :=
    BaseRipple.frame treeState state (rippleData sc) (rippleDummy sc) in
  let sets := map (layerFrame treeState state delta) (ornamentSets sc) in
  let (op, grp) := TreeTopStar.frame treeState state delta (starOpacity sc) in
  mkScene (targetCameraRotation sc) (sceneCamera sc) g snow snowM
    (meteorData sc) meteorM (rippleData sc) rippleD rippleM sets op grp.

(** One render frame.  The camera callback comes first in the order of
    the components; as [CameraController] is declared inside [Scene3D]
    its place among the callbacks can change when [Scene3D] renders
    again, so both places are provided for. *)
Definition sceneFrame (cameraFirst : bool) (treeState : TreeState)
  (handData : HandData) (time delta : R) (sc : Scene) : Scene :=
  if cameraFirst then
    populationFrames treeState time delta (cameraFrame handData delta sc)
  else
    cameraFrame handData delta (populationFrames treeState time delta sc).

End Scene3D.

(** ** Notions of the specification, used to state the properties *)

Module Spec.

(** [m] is [t] modulo the period [p]. *)
Definition is_mod (t p m : R) : Prop :=
  exists k : Z, m = t - p * IZR k /\ 0 <= m < p.

(** Distance between two landmarks in the image plane. *)
Definition euclidean (p q : HandTracker.Landmark) : R :=
  sqrt ((HandTracker.x p - HandTracker.x q) ^ 2
        + (HandTracker.y p - HandTracker.y q) ^ 2).

Definition meanDist (w t1 t2 t3 t4 : HandTracker.Landmark) : R :=
  (euclidean t1 w + euclidean t2 w + euclidean t3 w + euclidean t4 w) / 4.

(** Distance between two points of the scene. *)
Definition distance (p q : Vec3) : R :=
  sqrt ((vx p - vx q) ^ 2 + (vy p - vy q) ^ 2 + (vz p - vz q) ^ 2).

(** [v] lies between [a] and [b], ends included. *)
Definition between (a b v : R) : Prop := Rmin a b <= v <= Rmax a b.

(** Exponential smoothing, [v += (target - v) * rate]. *)
Definition smooth (v target rate : R) : R := v + (target - v) * rate.

(** Per-instance smoothing of a sequence of values toward their targets. *)
Definition smoothEach (rate : R) (prev targets : list R) : list R :=
  map (fun vt => smooth (fst vt) (snd vt) rate) (combine prev targets).

End Spec.

(** ** Sample inputs *)

Module Sample.

(** A hand of 21 points: the wrist at the origin of the image and every
    other point at [(d, 0)]. *)
Definition flatHand (d : R) : list HandTracker.Landmark :=
  HandTracker.mkLandmark 0 0 0 :: repeat (HandTracker.mkLandmark d 0 0) 20.

(** A root state at clock time [time], camera at its initial place. *)
Definition rootAt (time : R) : Scene3D.RootState :=
  Scene3D.mkRootState time
    (Scene3D.mkCamera (mkVec3 0 5 32)
       (Scene3D.QLookAt (mkVec3 0 5 32) (mkVec3 0 0 0))).

(** An ornament gathered at the origin and scattered to [(1, 0, 0)]. *)
Definition unitOrnament (sz : R) : OrnamentData :=
  mkOrnamentData (mkVec3 0 0 0) (mkVec3 0 0 0) (mkVec3 1 0 0)
    sphere COLORS.MATTE_GREEN sz.

End Sample.

(** ** Closed forms of the ornament loop *)

Module Closed.
Import Scene3D.

(** The scale an ornament is steered to. *)
Definition targetSize (treeState : TreeState) (o : OrnamentData) : R :=
  if TreeState_eqb treeState CLOSED then size o else size o * 2.0.

(** The scales written in one pass over the layer: each one is
    interpolated from the scale written just before it, starting from the
    scale [prev] that the scratch object holds when the pass begins. *)
Fixpoint chain (t prev : R) (targets : list R) : list R :=
  match targets with
  | [] => []
  | s :: rest => let v := lerp prev s t in v :: chain t v rest
  end.

(** The position after [n] frames toward a fixed target. *)
Fixpoint moves (n : nat) (t : R) (p tgt : Vec3) : Vec3 :=
  match n with
  | O => p
  | S k => moves k t (EmojiLayer.move t p tgt) tgt
  end.

(** The scales of a list of stored matrices. *)
Definition scales (ms : list Matrix4) : list R :=
  map (fun m => vx (m_scale m)) ms.

End Closed.

(** ** Notions used to state further properties *)

Module Aux.
Import Scene3D.

(** The generator [g] with its first [k] draws dropped. *)
Definition shift (k : nat) (g : JS.Rng) : JS.Rng := fun n => g (k + n)%nat.

(** The open/closed reading of the last signal of a stream that reports a
    hand, if there is one. *)
Definition lastDetected (signals : list HandData) : option bool :=
  fold_left (fun acc h => if detected h then Some (isOpen h) else acc)
    signals None.

(** The state a reading of the last detected signal leads to. *)
Definition settle (acc : option bool) (s : TreeState) : TreeState :=
  match acc with
  | Some true => SCATTERED
  | Some false => CLOSED
  | None => s
  end.

(** A hand moved by [(a, b)] in the image. *)
Definition translate (a b : R) (lms : list HandTracker.Landmark)
  : list HandTracker.Landmark :=
  map (fun l => HandTracker.mkLandmark (HandTracker.x l + a)
                  (HandTracker.y l + b) (HandTracker.z l)) lms.

(** The image coordinates of an optional landmark. *)
Definition xy (o : option HandTracker.Landmark) : option (R * R) :=
  option_map (fun l => (HandTracker.x l, HandTracker.y l)) o.

(** The flakes of a list that fall below the lower bound in a frame. *)
Definition respawning (delta : R) (data : list Snowfall.Flake) : nat :=
  List.length
    (filter (fun s => JS.lt (Snowfall.y s - Snowfall.speed s * delta * 2) (-20))
       data).

(** The volume the snow lives in. *)
Definition inVolume (s : Snowfall.Flake) : Prop :=
  -30 <= Snowfall.x s < 30 /\ -20 <= Snowfall.y s < 35 /\
  -30 <= Snowfall.z s < 30.

(** Squared distance of a point from the vertical axis. *)
Definition axisDist2 (p : Vec3) : R := vx p ^ 2 + vz p ^ 2.

(** Squared distance of a point from the origin. *)
Definition norm2 (p : Vec3) : R := vx p ^ 2 + vy p ^ 2 + vz p ^ 2.

(** All ornaments of the six sets. *)
Definition allOrnaments (sets : OrnamentSets.Sets) : list OrnamentData :=
  List.concat (map snd (OrnamentSets.entries sets)).

(** Place and size of a stored matrix, its orientation left aside. *)
Definition geometry (m : Matrix4) : Vec3 * Vec3 := (m_position m, m_scale m).

(** What a layer of a scene holds besides orientations. *)
Definition layerCore (l : list OrnamentData * EmojiLayer.State * list Matrix4)
  : list OrnamentData * list Vec3 * Vec3 * Vec3 * list (Vec3 * Vec3) :=
  let '(data, st, ms) := l in
  (data, EmojiLayer.currentPositions st,
   obj_position (EmojiLayer.dummy st), obj_scale (EmojiLayer.dummy st),
   map geometry ms).

(** A pixel of the sampling grid whose red byte is above 128. *)
Definition brightAt (imageData : MerryChristmasText.ImageData) (px py : nat)
  : Prop :=
  (px < 800)%nat /\ (py < 200)%nat /\
  (px mod 4 = 0)%nat /\ (py mod 4 = 0)%nat /\
  (128 < imageData ((py * 800 + px) * 4))%nat.

(** The pixels [(px, py)] of the sampling grid in the order of the scan,
    row by row, and those among them whose red byte is above 128. *)
Definition gridPixels : list (nat * nat) :=
  flat_map (fun py => map (fun px => (px, py))
                        (MerryChristmasText.steps
                           MerryChristmasText.canvasWidth))
    (MerryChristmasText.steps MerryChristmasText.canvasHeight).

Definition isBright (imageData : MerryChristmasText.ImageData)
  (pix : nat * nat) : bool :=
  (128 <? imageData ((snd pix * 800 + fst pix) * 4))%nat.

Definition brightPixels (imageData : MerryChristmasText.ImageData)
  : list (nat * nat) :=
  filter (isBright imageData) gridPixels.

(** The place of the particle sampled at a pixel. *)
Definition glyphAt (px py : nat) (p : MerryChristmasText.Particle) : Prop :=
  MerryChristmasText.x p = (INR px - 400) * 0.035 /\
  MerryChristmasText.y p = (100 - INR py) * 0.035 /\
  MerryChristmasText.z p = 0.

(** What holds of an ornament generated for the set [k]. *)
Definition wellFormed (k : OrnamentSets.Kind) (o : OrnamentData) : Prop :=
  initialPos o = treePos o /\
  -7 <= vy (treePos o) < 7 /\
  axisDist2 (treePos o) <= (7.2 * ((7 - vy (treePos o)) / 14)) ^ 2 /\
  15 ^ 2 <= norm2 (scatterPos o) < 40 ^ 2 /\
  match k with
  | OrnamentSets.tree => 0.6 <= size o < 1.08 /\ color o = COLORS.MATTE_GREEN
  | OrnamentSets.gift => 0.5 <= size o < 0.9 /\ color o = COLORS.CHRISTMAS_RED
  | OrnamentSets.candy => 0.5 <= size o < 0.9 /\ color o = COLORS.MATTE_GREEN
  | OrnamentSets.bell => 0.5 <= size o < 0.9 /\ color o = COLORS.METALLIC_GOLD
  | OrnamentSets.snowflake =>
      0.5 <= size o < 0.9 /\ color o = COLORS.MATTE_GREEN
  | OrnamentSets.star => False
  end.

Definition setsWellFormed (sets : OrnamentSets.Sets) : Prop :=
  Forall (fun e => Forall (wellFormed (fst e)) (snd e))
    (OrnamentSets.entries sets).

End Aux.

(** * Properties *)

(** ** JavaScript numbers *)

Module JSProps.

Lemma gt_true x y : JS.gt x y = true <-> x > y.
Proof.
  unfold JS.gt. destruct (Rgt_dec x y); split; intros; try easy.
Qed.

Lemma gt_false x y : JS.gt x y = false <-> x <= y.
Proof.
  unfold JS.gt. destruct (Rgt_dec x y); split; intros; try easy; lra.
Qed.

Lemma lt_true x y : JS.lt x y = true <-> x < y.
Proof.
  unfold JS.lt. destruct (Rlt_dec x y); split; intros; try easy.
Qed.

Lemma lt_false x y : JS.lt x y = false <-> y <= x.
Proof.
  unfold JS.lt. destruct (Rlt_dec x y); split; intros; try easy; lra.
Qed.

(** For a dividend that is not negative [%] is the usual remainder. *)
Lemma rem_is_mod a b : 0 <= a -> 0 < b -> Spec.is_mod a b (JS.rem a b).
Proof.
  intros Ha Hb. unfold Spec.is_mod, JS.rem, JS.trunc.
  assert (Hq : 0 <= a / b).
  { unfold Rdiv. apply Rmult_le_pos; [lra |].
    left. apply Rinv_0_lt_compat. lra. }
  destruct (Rle_dec 0 (a / b)) as [_ | N]; [| contradiction].
  exists (Int_part (a / b)). split; [reflexivity |].
  destruct (base_Int_part (a / b)) as [Hlo Hhi].
  assert (E : a = b * (a / b)) by (field; lra).
  split.
  - assert (b * IZR (Int_part (a / b)) <= b * (a / b))
      by (apply Rmult_le_compat_l; lra).
    lra.
  - assert (b * (a / b - IZR (Int_part (a / b))) < b * 1)
      by (apply Rmult_lt_compat_l; lra).
    lra.
Qed.

Lemma is_mod_unique t p m1 m2 :
  Spec.is_mod t p m1 -> Spec.is_mod t p m2 -> m1 = m2.
Proof.
  intros (k1 & E1 & B1) (k2 & E2 & B2).
  assert (Hp : 0 < p) by lra.
  assert (D : p * IZR (k1 - k2) = m2 - m1)
    by (rewrite minus_IZR; lra).
  assert (Hlt : IZR (k1 - k2) < 1).
  { apply Rmult_lt_reg_l with p; lra. }
  assert (Hgt : -1 < IZR (k1 - k2)).
  { apply Rmult_lt_reg_l with p; lra. }
  apply lt_IZR in Hlt. apply lt_IZR in Hgt.
  assert (k1 = k2) by lia. subst. lra.
Qed.

End JSProps.

Module AppProps.
Import App.

Lemma effect_settled h s : effect h (effect h s) = effect h s.
Proof.
  unfold effect.
  destruct (detected h) eqn:D, (isOpen h) eqn:O, s; cbn; rewrite ?D, ?O; reflexivity.
Qed.

Lemma onHandUpdate_effect h s : onHandUpdate h s = effect h s.
Proof.
  unfold onHandUpdate.
  destruct (TreeState_eqb (effect h s) s); [reflexivity | apply effect_settled].
Qed.

(** The scenario of the specification: open hand, no hand, fist. *)
Example run_open_none_fist :
  let open := mkHandData true (mkVec3 0 0 0) (mkVec2 0.5 0.5) true in
  let none := mkHandData false (mkVec3 0 0 0) (mkVec2 0 0) false in
  let fist := mkHandData false (mkVec3 0 0 0) (mkVec2 0.5 0.5) true in
  run [open] initialTreeState = SCATTERED /\
  run [open; open] initialTreeState = SCATTERED /\
  run [open; none] initialTreeState = SCATTERED /\
  run [open; none; fist] initialTreeState = CLOSED.
Proof. repeat split. Qed.

(** C1: the formation machine goes from CLOSED (the spec's GATHERED) to
    SCATTERED on a detected open hand, from SCATTERED to CLOSED on a
    detected closed hand, and keeps its state on every signal with
    [detected = false], whatever [isOpen] says. *)
Theorem formation_machine_steps :
  forall (h : HandData) (s : TreeState),
    (s = CLOSED -> detected h = true -> isOpen h = true ->
       onHandUpdate h s = SCATTERED) /\
    (s = SCATTERED -> detected h = true -> isOpen h = false ->
       onHandUpdate h s = CLOSED) /\
    (detected h = false -> onHandUpdate h s = s).
Proof.
  intros h s. rewrite onHandUpdate_effect. unfold effect.
  repeat split.
  - intros -> -> ->. reflexivity.
  - intros -> -> ->. reflexivity.
  - intros ->. reflexivity.
Qed.

Lemma formation_machine_steps_witness :
  let open := mkHandData true (mkVec3 0 0 0) (mkVec2 0.5 0.5) true in
  let fist := mkHandData false (mkVec3 0 0 0) (mkVec2 0.5 0.5) true in
  let none := mkHandData true (mkVec3 0 0 0) (mkVec2 0 0) false in
  onHandUpdate open CLOSED = SCATTERED /\
  onHandUpdate fist SCATTERED = CLOSED /\
  onHandUpdate none SCATTERED = SCATTERED.
Proof.
  intros open fist none.
  split; [| split].
  - apply (proj1 (formation_machine_steps open CLOSED)); reflexivity.
  - apply (proj1 (proj2 (formation_machine_steps fist SCATTERED))); reflexivity.
  - apply (proj2 (proj2 (formation_machine_steps none SCATTERED))); reflexivity.
Defined.

End AppProps.

(** ** The gesture classifier *)

Module HandTrackerProps.
Import HandTracker Sample.

Lemma get_in_range {A} (l : list A) (n : nat) :
  (n < List.length l)%nat -> exists a, get l n = Some a.
Proof.
  intros H. unfold get.
  destruct (nth_error l n) eqn:E; [eauto |].
  apply nth_error_None in E. lia.
Qed.

Lemma get_out_of_range {A} (l : list A) (n : nat) :
  (List.length l <= n)%nat -> get l n = None.
Proof. intros H. apply nth_error_None. exact H. Qed.

(** Without a drawing context the callback returns before it looks at
    the frame. *)
Lemma onResults_without_canvas results :
  onResults false results = Normal None.
Proof. reflexivity. Qed.

(** With the six landmarks present the callback completes and reports
    the hand, open according to the mean fingertip distance. *)
Lemma classify_complete lms w t1 t2 t3 t4 m :
  get lms 0 = Some w -> get lms 8 = Some t1 -> get lms 12 = Some t2 ->
  get lms 16 = Some t3 -> get lms 20 = Some t4 -> get lms 9 = Some m ->
  classify lms =
    Normal (mkHandData (JS.gt (Spec.meanDist w t1 t2 t3 t4) 0.35)
              (mkVec3 ((y m - y w) * 2) ((x m - x w) * 2)
                 (JS.Math_atan2 (y m - y w) (x m - x w)))
              (mkVec2 (x m) (y m)) true).
Proof.
  intros H0 H8 H12 H16 H20 H9.
  unfold classify, avgDist, fingerTips. cbv [map].
  rewrite H0, H8, H12, H16, H20, H9.
  simpl. do 2 f_equal.
  unfold Spec.meanDist, Spec.euclidean. f_equal.
  repeat rewrite <- Rsqr_pow2. unfold Rsqr. lra.
Qed.

(** C2: when a hand is detected the classifier reports [isOpen = true]
    exactly when the mean distance of the four fingertips to the wrist
    exceeds 0.35; a mean of exactly 0.35 gives [isOpen = false]. *)
Theorem open_iff_mean_above_threshold :
  forall (lms : list Landmark) (rest : list (list Landmark))
         (w t1 t2 t3 t4 m : Landmark),
    get lms 0 = Some w -> get lms 8 = Some t1 -> get lms 12 = Some t2 ->
    get lms 16 = Some t3 -> get lms 20 = Some t4 -> get lms 9 = Some m ->
    exists h,
      onResults true (mkResults (Some (lms :: rest))) = Normal (Some h) /\
      detected h = true /\
      (isOpen h = true <-> Spec.meanDist w t1 t2 t3 t4 > 0.35) /\
      (Spec.meanDist w t1 t2 t3 t4 = 0.35 -> isOpen h = false).
Proof.
  intros lms rest w t1 t2 t3 t4 m H0 H8 H12 H16 H20 H9.
  eexists. split.
  - unfold onResults. cbn [negb multiHandLandmarks].
    rewrite (classify_complete lms w t1 t2 t3 t4 m) by assumption.
    reflexivity.
  - simpl. split; [reflexivity |]. split.
    + apply JSProps.gt_true.
    + intros E. apply JSProps.gt_false. lra.
Qed.

Lemma euclidean_flat d : 0 <= d ->
  Spec.euclidean (mkLandmark d 0 0) (mkLandmark 0 0 0) = d.
Proof.
  intros Hd. unfold Spec.euclidean. simpl.
  match goal with
  | |- sqrt ?e = _ => replace e with (d * d) by ring
  end.
  apply sqrt_square. exact Hd.
Qed.

Lemma open_iff_mean_above_threshold_witness :
  exists h,
    onResults true (mkResults (Some [flatHand 0.35])) = Normal (Some h) /\
    detected h = true /\ isOpen h = false.
Proof.
  destruct (open_iff_mean_above_threshold (flatHand 0.35) []
              (mkLandmark 0 0 0) (mkLandmark 0.35 0 0) (mkLandmark 0.35 0 0)
              (mkLandmark 0.35 0 0) (mkLandmark 0.35 0 0) (mkLandmark 0.35 0 0)
              eq_refl eq_refl eq_refl eq_refl eq_refl eq_refl)
    as (h & Hres & Hdet & _ & Hedge).
  exists h. split; [exact Hres |]. split; [exact Hdet |].
  apply Hedge. unfold Spec.meanDist.
  rewrite euclidean_flat by lra. lra.
Defined.

(** C4, as the code has it: a frame without a hand gives the
    not-detected signal; a hand with all 21 points is reported as
    detected; a hand with fewer points is not turned into the
    not-detected signal, the callback raises instead. *)
Theorem frames_by_landmark_count :
  forall (results : Results),
    match multiHandLandmarks results with
    | None | Some [] =>
        onResults true results = Normal (Some notDetected)
    | Some (lms :: _) =>
        ((21 <= List.length lms)%nat ->
           exists h, onResults true results = Normal (Some h) /\
                     detected h = true) /\
        ((List.length lms < 21)%nat -> onResults true results = TypeError)
    end.
Proof.
  intros [[[| lms rest] |]]; cbn [multiHandLandmarks]; try reflexivity.
  split.
  - intros Hlen.
    destruct (get_in_range lms 0) as [w H0]; [lia |].
    destruct (get_in_range lms 8) as [t1 H8]; [lia |].
    destruct (get_in_range lms 12) as [t2 H12]; [lia |].
    destruct (get_in_range lms 16) as [t3 H16]; [lia |].
    destruct (get_in_range lms 20) as [t4 H20]; [lia |].
    destruct (get_in_range lms 9) as [m H9]; [lia |].
    unfold onResults. cbn [negb multiHandLandmarks].
    rewrite (classify_complete lms w t1 t2 t3 t4 m) by assumption.
    eexists. split; reflexivity.
  - intros Hlen.
    assert (H20 : get lms 20 = None) by (apply get_out_of_range; lia).
    unfold onResults, classify, avgDist, fingerTips.
    cbv [map negb multiHandLandmarks].
    rewrite H20.
    destruct (get lms 0), (get lms 8), (get lms 12), (get lms 16);
      reflexivity.
Qed.

Lemma frames_by_landmark_count_witness :
  onResults true (mkResults None) = Normal (Some notDetected) /\
  (exists h, onResults true (mkResults (Some [flatHand 0.5])) = Normal (Some h)
             /\ detected h = true) /\
  onResults true (mkResults (Some [firstn 9 (flatHand 0.5)])) = TypeError.
Proof.
  split; [| split].
  - exact (frames_by_landmark_count (mkResults None)).
  - apply (proj1 (frames_by_landmark_count (mkResults (Some [flatHand 0.5])))).
    simpl. lia.
  - apply (proj2 (frames_by_landmark_count
                    (mkResults (Some [firstn 9 (flatHand 0.5)])))).
    simpl. lia.
Defined.

(** C4 as stated fails: a hand of nine points is not rejected as "not
    detected", the callback raises a [TypeError] and hands nothing on. *)
Lemma short_hand_raises :
  let results := mkResults (Some [firstn 9 (flatHand 0.5)]) in
  (List.length (firstn 9 (flatHand 0.5)) = 9)%nat /\
  onResults true results = TypeError /\
  onResults true results <> Normal (Some notDetected).
Proof.
  simpl. split; [reflexivity |]. split; [reflexivity | discriminate].
Qed.

End HandTrackerProps.

(** ** Interpolation *)

Module LerpProps.
Import Scene3D.

Lemma lerp_smooth a b t : lerp a b t = Spec.smooth a b t.
Proof. reflexivity. Qed.

(** The remaining offset to the target is scaled by [1 - t]. *)
Lemma lerp_offset a b t : lerp a b t - b = (1 - t) * (a - b).
Proof. unfold lerp. ring. Qed.

(** No overshoot for a factor within the unit interval. *)
Lemma lerp_between a b t : 0 <= t <= 1 -> Spec.between a b (lerp a b t).
Proof.
  intros Ht. unfold Spec.between, lerp, Rmin, Rmax.
  destruct (Rle_dec a b); split; nra.
Qed.

(** A factor above one carries the value past the target. *)
Lemma lerp_overshoot a b t : 1 < t -> a < b -> b < lerp a b t.
Proof. intros Ht Hab. unfold lerp. nra. Qed.

End LerpProps.

(** ** Meteors *)

Module MeteorProps.
Import Scene3D Scene3D.MeteorShower.

(** C10: every frame gives every meteor the uniform scale
    [size * (1 + 0.3 * sin (3 t + phase))] times a formation factor, 1 when
    CLOSED (gathered) and 0.3 when SCATTERED; the scattered scale is thus
    0.3 times the gathered one. *)
Theorem meteor_scale_by_formation :
  forall (treeState : TreeState) (state : RootState) (data : list Meteor)
         (i : nat) (m : Meteor),
    nth_error data i = Some m ->
    let t := elapsedTime state in
    let gathered := size m * (1 + 0.3 * sin (3 * t + phase m)) in
    let factor := match treeState with CLOSED => 1 | SCATTERED => 0.3 end in
    List.length (frame treeState state data) = List.length data /\
    (exists mat,
       nth_error (frame treeState state data) i = Some mat /\
       m_scale mat =
         mkVec3 (gathered * factor) (gathered * factor) (gathered * factor)) /\
    (exists matC matS,
       nth_error (frame CLOSED state data) i = Some matC /\
       nth_error (frame SCATTERED state data) i = Some matS /\
       vx (m_scale matC) = gathered /\
       vx (m_scale matS) = 0.3 * vx (m_scale matC)).
Proof.
  intros treeState state data i m Hi t gathered factor.
  unfold frame. split; [apply length_map |]. split.
  - eexists. split; [apply map_nth_error; exact Hi |].
    unfold body. cbn [m_scale]. subst t gathered factor.
    destruct treeState; cbn [TreeState_eqb];
      replace (elapsedTime state * 3) with (3 * elapsedTime state) by ring;
      f_equal; ring.
  - do 2 eexists.
    split; [apply map_nth_error; exact Hi |].
    split; [apply map_nth_error; exact Hi |].
    unfold body. cbn [m_scale vx TreeState_eqb]. subst t gathered.
    replace (elapsedTime state * 3) with (3 * elapsedTime state) by ring.
    split; ring.
Qed.

Lemma meteor_scale_by_formation_witness :
  let m := mkMeteor 0 1 0 1 0.1 0 in
  let state := mkRootState 0 (mkCamera (mkVec3 0 5 32) QIdentity) in
  exists matC matS,
    nth_error (frame CLOSED state [m]) 0 = Some matC /\
    nth_error (frame SCATTERED state [m]) 0 = Some matS /\
    vx (m_scale matC) = 0.1 * (1 + 0.3 * sin (3 * 0 + 0)) /\
    vx (m_scale matS) = 0.3 * vx (m_scale matC).
Proof.
  intros m state.
  exact (proj2 (proj2 (meteor_scale_by_formation CLOSED state [m] 0 m eq_refl))).
Defined.

End MeteorProps.

(** ** Camera *)

Module CameraProps.
Import Scene3D Scene3D.CameraController.

(** C7: with a detected hand the target yaw becomes
    [(position.x - 0.5) * PI] and the target pitch proxy
    [(position.y - 0.5) * PI * 0.5]; without one both targets stay; in
    every frame the camera position is smoothed with rate [3 * delta]
    toward [(32 sin yaw, pitch * 20 + 7, 32 cos yaw)] and the camera then
    looks at the origin from its new position. *)
Theorem camera_follows_gesture :
  forall (handData : HandData) (delta : R) (target : Vec2) (cam : Camera),
    let target' := fst (frame handData delta target cam) in
    let cam' := snd (frame handData delta target cam) in
    let yaw := v2y target' in
    let pitch := v2x target' in
    (detected handData = true ->
       yaw = (v2x (position handData) - 0.5) * PI /\
       pitch = (v2y (position handData) - 0.5) * PI * 0.5) /\
    (detected handData = false -> target' = target) /\
    cam_position cam' =
      mkVec3
        (Spec.smooth (vx (cam_position cam)) (32 * sin yaw) (3 * delta))
        (Spec.smooth (vy (cam_position cam)) (pitch * 20 + 7) (3 * delta))
        (Spec.smooth (vz (cam_position cam)) (32 * cos yaw) (3 * delta)) /\
    cam_quaternion cam' = QLookAt (cam_position cam') (mkVec3 0 0 0).
Proof.
  intros handData delta target cam. unfold frame. cbn [fst snd].
  repeat split.
  - destruct (detected handData); [reflexivity | discriminate].
  - destruct (detected handData); [reflexivity | discriminate].
  - intros ->. reflexivity.
  - cbn [cam_position]. unfold lerp, Spec.smooth.
    replace (delta * 3) with (3 * delta) by ring. reflexivity.
Qed.

Lemma camera_follows_gesture_witness :
  let cam := mkCamera (mkVec3 0 5 32) (QLookAt (mkVec3 0 5 32) (mkVec3 0 0 0)) in
  let hand := mkHandData true (mkVec3 0 0 0) (mkVec2 1 0.5) true in
  let none := mkHandData false (mkVec3 0 0 0) (mkVec2 0 0) false in
  (v2y (fst (frame hand 0.1 initialTarget cam)) = (1 - 0.5) * PI /\
   v2x (fst (frame hand 0.1 initialTarget cam)) = (0.5 - 0.5) * PI * 0.5) /\
  fst (frame none 0.1 (mkVec2 0.2 0.3) cam) = mkVec2 0.2 0.3.
Proof.
  intros cam hand none. split.
  - exact (proj1 (camera_follows_gesture hand 0.1 initialTarget cam) eq_refl).
  - exact (proj1 (proj2 (camera_follows_gesture none 0.1 (mkVec2 0.2 0.3) cam))
             eq_refl).
Defined.

End CameraProps.

(** ** Ripples *)

Module RippleProps.
Import Scene3D Scene3D.BaseRipple.

(** The scale written for a ripple does not depend on the scratch object. *)
Lemma body_scale_any_dummy time c r d d' :
  obj_scale (body time c r d) = obj_scale (body time c r d').
Proof.
  unfold body.
  destruct (JS.lt time _); [reflexivity |].
  destruct (JS.gt _ 1.0 || JS.lt _ 0); reflexivity.
Qed.

Lemma ripple_loop_length time c data d :
  List.length (fst (loop time c data d)) = List.length data.
Proof.
  revert d. induction data as [| r rest IH]; intros d; [reflexivity |].
  cbn [loop]. specialize (IH (body time c r d)).
  destruct (loop time c rest (body time c r d)). cbn in *. now rewrite IH.
Qed.

(** Instance [i] receives the matrix of the scratch object after the body
    has run for its record. *)
Lemma ripple_loop_nth time c data d i r :
  nth_error data i = Some r ->
  exists d', nth_error (fst (loop time c data d)) i
             = Some (updateMatrix (body time c r d')).
Proof.
  revert d i. induction data as [| r0 rest IH]; intros d i Hi.
  - destruct i; discriminate.
  - cbn [loop].
    destruct (loop time c rest (body time c r0 d)) as [ms dl] eqn:E.
    destruct i as [| i].
    + injection Hi as ->. exists d. reflexivity.
    + cbn in Hi. destruct (IH (body time c r0 d) i Hi) as [d' Hd'].
      rewrite E in Hd'. exists d'. exact Hd'.
Qed.

(** The seed data: instance [i] lies in ring [i / 450] and its random
    offset is in [0, 0.5). *)
Lemma seeds_sound indices g :
  JS.unit_draws g ->
  Forall2 (fun i r => ringIndex r = (i / particlesPerRing)%nat /\
                      0 <= randomOffset r < 0.5)
    indices (fst (seeds indices g)).
Proof.
  revert g. induction indices as [| i rest IH]; intros g Hg; [constructor |].
  cbn [seeds]. unfold seed, JS.Math_random.
  specialize (IH (fun n => g (S (S n))) (fun n => Hg (S (S n)))).
  destruct (seeds rest (fun n => g (S (S n)))) as [rs g2].
  cbn [fst] in *. constructor; [| exact IH].
  cbn [ringIndex randomOffset]. pose proof (Hg 0%nat).
  split; [reflexivity | lra].
Qed.

Lemma Forall2_lookup {A B} (P : A -> B -> Prop) l1 l2 j b :
  Forall2 P l1 l2 -> nth_error l2 j = Some b ->
  exists a, nth_error l1 j = Some a /\ P a b.
Proof.
  intros F. revert j. induction F as [| a0 b0 l1 l2 H F IH]; intros j Hj.
  - destruct j; discriminate.
  - destruct j as [| j].
    + injection Hj as <-. exists a0. split; [reflexivity | exact H].
    + cbn in Hj. destruct (IH j Hj) as (a & Ha & Hp). exists a. split; assumption.
Qed.

Lemma rippleData_ring0 g i r :
  JS.unit_draws g ->
  (i < particlesPerRing)%nat ->
  nth_error (fst (rippleData g)) i = Some r ->
  ringIndex r = 0%nat /\ 0 <= randomOffset r < 0.5.
Proof.
  intros Hg Hi Hr. unfold rippleData in Hr.
  destruct (Forall2_lookup _ _ _ i r (seeds_sound (seq 0 totalCount) g Hg) Hr)
    as (k & Hk & Hring & Hoff).
  assert (Hlt : (i < List.length (seq 0 totalCount))%nat).
  { apply nth_error_Some. rewrite Hk. discriminate. }
  rewrite length_seq in Hlt.
  apply (nth_error_nth _ _ 0%nat) in Hk.
  rewrite seq_nth in Hk by exact Hlt. cbn in Hk. subst k.
  split; [| exact Hoff].
  rewrite Hring. apply Nat.div_small. exact Hi.
Qed.

(** The scale of a ring-0 ripple at a time that is not negative, in terms
    of the position [m] of the time within the cycle. *)
Lemma ring0_scale time c r d m :
  ringIndex r = 0%nat -> 0 <= time ->
  Spec.is_mod time cycleDuration m ->
  exists s,
    obj_scale (body time c r d) = mkVec3 s s s /\
    (m < 3 -> s = (0.08 + randomOffset r * 0.15) * (1 - m / 3)) /\
    (3 <= m -> s = 0).
Proof.
  intros Hring Ht Hm.
  assert (Hrem : JS.rem time cycleDuration = m).
  { apply JSProps.is_mod_unique with time cycleDuration; [| exact Hm].
    apply JSProps.rem_is_mod; [exact Ht | unfold cycleDuration; lra]. }
  unfold body. rewrite Hring. cbn [INR].
  replace (time - 0 * staggerTime) with time by ring.
  rewrite Hrem.
  replace (JS.lt time (0 * staggerTime)) with false
    by (symmetry; apply JSProps.lt_false; lra).
  destruct Hm as (_ & _ & Hm0 & _).
  replace (JS.lt (m / 3.0) 0) with false
    by (symmetry; apply JSProps.lt_false; lra).
  destruct (JS.gt (m / 3.0) 1.0) eqn:G; cbn [orb].
  - apply JSProps.gt_true in G.
    exists 0. split; [reflexivity |]. split; [lra | reflexivity].
  - apply JSProps.gt_false in G.
    eexists. split; [reflexivity |].
    unfold JS.Math_max, Rmax. split; intros Hc.
    + destruct (Rle_dec 0 (1 - m / 3.0)); [f_equal; lra | lra].
    + destruct (Rle_dec 0 (1 - m / 3.0)); [| ring].
      replace (1 - m / 3.0) with 0 by lra. ring.
Qed.

(** C5: for an instance of ring 0 (stagger 0.9, cycle 6.5, active window
    3.0) and a time [t >= 0], the frame stores a scale greater than zero
    exactly when [t mod 6.5 < 3.0], and the scale zero otherwise; the
    instance keeps its slot in the buffer. *)
Theorem ring0_visible_iff_in_window :
  forall (treeState : TreeState) (state : RootState) (data : list Ripple)
         (dummy : Object3D) (i : nat) (r : Ripple) (m : R),
    nth_error data i = Some r ->
    ringIndex r = 0%nat ->
    0 <= randomOffset r ->
    0 <= elapsedTime state ->
    Spec.is_mod (elapsedTime state) 6.5 m ->
    let buffer := fst (frame treeState state data dummy) in
    List.length buffer = List.length data /\
    exists mat s,
      nth_error buffer i = Some mat /\
      m_scale mat = mkVec3 s s s /\
      (0 < s <-> m < 3.0) /\
      (~ m < 3.0 -> s = 0).
Proof.
  intros treeState state data dummy i r m Hi Hring Hoff Ht Hm buffer.
  subst buffer. unfold frame. split; [apply ripple_loop_length |].
  destruct (ripple_loop_nth (elapsedTime state) (TreeState_eqb treeState CLOSED)
              data dummy i r Hi) as [d' Hd'].
  destruct (ring0_scale (elapsedTime state) (TreeState_eqb treeState CLOSED)
              r d' m Hring Ht Hm) as (s & Hs & Hin & Hout).
  exists (updateMatrix (body (elapsedTime state)
                          (TreeState_eqb treeState CLOSED) r d')), s.
  split; [exact Hd' |]. split; [exact Hs |].
  destruct Hm as (_ & _ & Hm0 & _).
  split; [split |].
  - intros Hpos. destruct (Rlt_dec m 3.0) as [L | N]; [exact L |].
    rewrite Hout in Hpos by lra. lra.
  - intros L. rewrite Hin by lra.
    apply Rmult_lt_0_compat; lra.
  - intros N. apply Hout. lra.
Qed.

Lemma ring0_visible_iff_in_window_witness :
  let state := mkRootState 7.5 (mkCamera (mkVec3 0 5 32) QIdentity) in
  let r := mkRipple 0 0 0.25 1 in
  exists mat s,
    nth_error (fst (frame CLOSED state [r] newObject3D)) 0 = Some mat /\
    m_scale mat = mkVec3 s s s /\ 0 < s.
Proof.
  intros state r.
  assert (Hm : Spec.is_mod (elapsedTime state) 6.5 1).
  { exists 1%Z. cbn [elapsedTime state]. split; lra. }
  destruct (ring0_visible_iff_in_window CLOSED state [r] newObject3D 0 r 1
              eq_refl eq_refl
              ltac:(cbn [randomOffset r]; lra)
              ltac:(cbn [elapsedTime state]; lra)
              Hm)
    as (_ & mat & s & Hnth & Hs & Hiff & _).
  exists mat, s. split; [exact Hnth |]. split; [exact Hs |].
  apply Hiff. lra.
Defined.

End RippleProps.

(** ** Snow *)

Module SnowProps.
Import Scene3D Scene3D.Snowfall.

(** A flake below the lower bound is put back on top, with two draws. *)
Lemma fall_respawn delta s g :
  y s - speed s * delta * 2 < -20 ->
  fall delta s g =
    (mkFlake ((g 0%nat - 0.5) * 60) 30 ((g 1%nat - 0.5) * 60)
       (speed s) (offset s) (size s) (rotSpeed s),
     fun n => g (S (S n))).
Proof.
  intros H. unfold fall.
  replace (JS.lt _ _) with true by (symmetry; apply JSProps.lt_true; exact H).
  reflexivity.
Qed.

(** Otherwise it has moved down by [speed * delta * 2]. *)
Lemma fall_descend delta s g :
  -20 <= y s - speed s * delta * 2 ->
  fall delta s g =
    (mkFlake (x s) (y s - speed s * delta * 2) (z s)
       (speed s) (offset s) (size s) (rotSpeed s), g).
Proof.
  intros H. unfold fall.
  replace (JS.lt _ _) with false by (symmetry; apply JSProps.lt_false; exact H).
  reflexivity.
Qed.

(** Each call leaves a generator that is the old one with some draws
    dropped. *)
Lemma fall_generator delta s g :
  exists k, forall n, snd (fall delta s g) n = g (k + n)%nat.
Proof.
  unfold fall. destruct (JS.lt _ _).
  - exists 2%nat. reflexivity.
  - exists 0%nat. reflexivity.
Qed.

(** The new record depends on the draws only. *)
Lemma fall_record_ext delta s g g' :
  (forall n, g n = g' n) -> fst (fall delta s g) = fst (fall delta s g').
Proof.
  intros E. unfold fall.
  destruct (JS.lt (y s - speed s * delta * 2) (-20)); cbn.
  - rewrite (E 0%nat), (E 1%nat). reflexivity.
  - reflexivity.
Qed.

(** Instance [i] is updated by [fall], from the generator as the earlier
    instances of the pass have left it. *)
Lemma snow_loop_nth state delta data g i s :
  nth_error data i = Some s ->
  exists k,
    nth_error (fst (fst (loop state delta data g))) i
      = Some (fst (fall delta s (fun n => g (k + n)%nat))).
Proof.
  revert g i. induction data as [| s0 rest IH]; intros g i Hi.
  - destruct i; discriminate.
  - cbn [loop].
    destruct (fall delta s0 g) as [s0' g1] eqn:F.
    destruct (loop state delta rest g1) as [[ss ms] g2] eqn:L.
    destruct i as [| i].
    + injection Hi as ->. exists 0%nat. cbn.
      replace (fun n => g n) with g by reflexivity.
      rewrite F. reflexivity.
    + cbn in Hi. destruct (IH g1 i Hi) as [k Hk].
      rewrite L in Hk. cbn in Hk.
      destruct (fall_generator delta s0 g) as [k0 Hk0].
      rewrite F in Hk0. cbn in Hk0.
      exists (k0 + k)%nat. cbn. rewrite Hk. f_equal.
      apply fall_record_ext. intros n. rewrite Hk0. f_equal. lia.
Qed.

(** The records and the generator after a pass do not depend on the root
    state: clock and camera only enter the stored matrices. *)
Lemma snow_loop_any_state state state' delta data g :
  fst (fst (loop state delta data g)) = fst (fst (loop state' delta data g)) /\
  snd (loop state delta data g) = snd (loop state' delta data g).
Proof.
  revert g. induction data as [| s rest IH]; intros g; [split; reflexivity |].
  cbn [loop]. destruct (fall delta s g) as [s' g1].
  specialize (IH g1).
  destruct (loop state delta rest g1) as [[ss ms] g2].
  destruct (loop state' delta rest g1) as [[ss' ms'] g2'].
  cbn in *. destruct IH as [-> ->]. split; reflexivity.
Qed.

(** The camera callback leaves the snow records and the generator. *)
Lemma cameraFrame_snow hd delta sc :
  snowData (cameraFrame hd delta sc) = snowData sc /\
  random (cameraFrame hd delta sc) = random sc.
Proof.
  unfold cameraFrame.
  destruct (CameraController.frame _ _ _ _). split; reflexivity.
Qed.

Lemma populationFrames_snow ts time delta sc :
  snowData (populationFrames ts time delta sc)
    = fst (fst (frame (mkRootState time (sceneCamera sc)) delta
                  (snowData sc) (random sc))) /\
  random (populationFrames ts time delta sc)
    = snd (frame (mkRootState time (sceneCamera sc)) delta
             (snowData sc) (random sc)).
Proof.
  unfold populationFrames.
  destruct (frame _ delta (snowData sc) (random sc)) as [[snow snowM] g].
  destruct (BaseRipple.frame _ _ _ _) as [rippleM rippleD].
  destruct (TreeTopStar.frame _ _ _ _) as [op grp].
  split; reflexivity.
Qed.

(** The snow records of a scene frame are those of the snow pass. *)
Lemma scene_snow order treeState handData time delta sc :
  exists state,
    snowData (sceneFrame order treeState handData time delta sc)
      = fst (fst (frame state delta (snowData sc) (random sc))) /\
    random (sceneFrame order treeState handData time delta sc)
      = snd (frame state delta (snowData sc) (random sc)).
Proof.
  unfold sceneFrame. destruct order.
  - destruct (cameraFrame_snow handData delta sc) as [Ed Er].
    destruct (populationFrames_snow treeState time delta
                (cameraFrame handData delta sc)) as [Hd Hr].
    rewrite Ed, Er in Hd, Hr. eexists. split; [exact Hd | exact Hr].
  - destruct (cameraFrame_snow handData delta
                (populationFrames treeState time delta sc)) as [Ed Er].
    destruct (populationFrames_snow treeState time delta sc) as [Hd Hr].
    rewrite Ed, Er. eexists. split; [exact Hd | exact Hr].
Qed.

Lemma scene_snow_independent order ts hd order' ts' hd' time delta sc :
  snowData (sceneFrame order ts hd time delta sc)
    = snowData (sceneFrame order' ts' hd' time delta sc) /\
  random (sceneFrame order ts hd time delta sc)
    = random (sceneFrame order' ts' hd' time delta sc).
Proof.
  destruct (scene_snow order ts hd time delta sc) as (st & -> & ->).
  destruct (scene_snow order' ts' hd' time delta sc) as (st' & -> & ->).
  unfold frame. apply snow_loop_any_state.
Qed.

(** The seed data lies in the volume [-30, 30) x [-15, 35) x [-30, 30)
    and falls with a speed in [0.3, 1.5). *)
Lemma seed_bounds g :
  JS.unit_draws g ->
  let s := fst (seed g) in
  -30 <= x s < 30 /\ -15 <= y s < 35 /\ -30 <= z s < 30 /\
  0.3 <= speed s < 1.5.
Proof.
  intros H. cbn.
  pose proof (H 0%nat). pose proof (H 1%nat).
  pose proof (H 2%nat). pose proof (H 3%nat).
  repeat split; lra.
Qed.

(** C8: in a scene frame, a flake that falls below -20 is put back at
    [y = 30 > 25] with [x] and [z] drawn anew inside [-30, 30), the bounds
    of the seed data; in the next frame it falls again by
    [speed * delta * 2]; and the snow records are the same whatever the
    formation state and the gesture signal are. *)
Theorem snow_respawns_above :
  forall (order : bool) (treeState : TreeState) (handData : HandData)
         (time delta : R) (sc : Scene) (i : nat) (s : Flake),
    JS.unit_draws (random sc) ->
    nth_error (snowData sc) i = Some s ->
    y s - speed s * delta * 2 < -20 ->
    let sc1 := sceneFrame order treeState handData time delta sc in
    (exists s1,
       nth_error (snowData sc1) i = Some s1 /\
       y s1 = 30 /\ y s1 > 25 /\
       -30 <= x s1 < 30 /\ -30 <= z s1 < 30 /\
       (exists k, x s1 = (random sc k - 0.5) * 60 /\
                  z s1 = (random sc (S k) - 0.5) * 60) /\
       speed s1 = speed s /\
       (forall order2 treeState2 handData2 time2 delta2,
          0 < speed s -> 0 < delta2 ->
          -20 <= 30 - speed s * delta2 * 2 ->
          exists s2,
            nth_error
              (snowData
                 (sceneFrame order2 treeState2 handData2 time2 delta2 sc1)) i
              = Some s2 /\
            y s2 = y s1 - speed s * delta2 * 2 /\ y s2 < y s1 /\
            x s2 = x s1 /\ z s2 = z s1)) /\
    (forall order' treeState' handData',
       snowData (sceneFrame order' treeState' handData' time delta sc)
         = snowData sc1).
Proof.
  intros order treeState handData time delta sc i s Hg Hi Hlow sc1.
  split.
  - destruct (scene_snow order treeState handData time delta sc)
      as (st & Hd & _).
    destruct (snow_loop_nth st delta (snowData sc) (random sc) i s Hi)
      as [k Hk].
    fold (frame st delta (snowData sc) (random sc)) in Hk.
    rewrite <- Hd in Hk. fold sc1 in Hk.
    rewrite (fall_respawn delta s _ Hlow) in Hk. cbn [fst] in Hk.
    eexists. split; [exact Hk |]. cbn [x y z speed].
    pose proof (Hg (k + 0)%nat) as B0. pose proof (Hg (k + 1)%nat) as B1.
    split; [reflexivity |]. split; [lra |].
    split; [lra |]. split; [lra |].
    split.
    { exists k. replace (k + 0)%nat with k by lia.
      replace (k + 1)%nat with (S k) by lia. split; reflexivity. }
    split; [reflexivity |].
    intros order2 ts2 hd2 time2 delta2 Hsp Hd2 Hroom.
    destruct (scene_snow order2 ts2 hd2 time2 delta2 sc1) as (st2 & Hd' & _).
    destruct (snow_loop_nth st2 delta2 (snowData sc1) (random sc1) i _ Hk)
      as [k2 Hk2].
    fold (frame st2 delta2 (snowData sc1) (random sc1)) in Hk2.
    rewrite <- Hd' in Hk2.
    rewrite fall_descend in Hk2 by (cbn [y speed]; lra).
    cbn [fst x y z speed] in Hk2.
    eexists. split; [exact Hk2 |]. cbn [x y z].
    assert (0 < speed s * delta2) by (apply Rmult_lt_0_compat; lra).
    repeat split; lra.
  - intros order' ts' hd'. subst sc1. apply scene_snow_independent.
Qed.

Lemma snow_respawns_above_witness :
  let cam := mkCamera (mkVec3 0 5 32) QIdentity in
  let s := mkFlake 3 (-19.9) 4 1 0 0.1 0 in
  let none := mkHandData false (mkVec3 0 0 0) (mkVec2 0 0) false in
  let sc := mkScene (mkVec2 0 0) cam (fun _ => 0.5) [s] [] [] []
              [] newObject3D [] [] 1
              (TreeTopStar.mkGroup 0 (mkVec3 1 1 1) 1) in
  exists s1,
    nth_error (snowData (sceneFrame true CLOSED none 10 0.1 sc)) 0 = Some s1 /\
    y s1 = 30 /\ x s1 = 0 /\ z s1 = 0.
Proof.
  intros cam s none sc.
  assert (Hg : JS.unit_draws (random sc)) by (intros n; cbn; lra).
  assert (Hlow : y s - speed s * 0.1 * 2 < -20) by (cbn; lra).
  destruct (snow_respawns_above true CLOSED none 10 0.1 sc 0 s Hg eq_refl Hlow)
    as [(s1 & Hnth & Hy & _ & _ & _ & (k & Hx & Hz) & _) _].
  exists s1. split; [exact Hnth |]. split; [exact Hy |].
  cbn [random sc] in Hx, Hz. split; lra.
Defined.

End SnowProps.

(** ** Ornaments *)

Module OrnamentProps.
Import Scene3D Scene3D.EmojiLayer Closed Sample.

Lemma loop_positions ts state delta i data cur d j o p :
  nth_error data j = Some o ->
  nth_error cur j = Some p ->
  nth_error (fst (fst (loop ts state delta i data cur d))) j
    = Some (move (delta * 2.5) p (target ts o)).
Proof.
  revert i cur d j.
  induction data as [| o0 rest IH]; intros i cur d j Ho Hp.
  - destruct j; discriminate.
  - destruct cur as [| c cur']; [destruct j; discriminate |].
    cbn [loop].
    destruct (body ts state delta i o0 c d) as [c1 d1] eqn:B.
    destruct (loop ts state delta (S i) rest cur' d1) as [[cs ms] d2] eqn:L.
    destruct j as [| j].
    + injection Ho as ->. injection Hp as ->.
      unfold body in B. injection B as <- _. reflexivity.
    + cbn in Ho, Hp. specialize (IH (S i) cur' d1 j Ho Hp).
      rewrite L in IH. exact IH.
Qed.

Lemma frame_position ts state delta data st j o p :
  nth_error data j = Some o ->
  nth_error (currentPositions st) j = Some p ->
  nth_error (currentPositions (fst (frame ts state delta data st))) j
    = Some (move (delta * 2.5) p (target ts o)).
Proof.
  intros Ho Hp. unfold frame.
  pose proof (loop_positions ts state delta 0 data (currentPositions st)
                (dummy st) j o p Ho Hp) as H.
  destruct (loop ts state delta 0 data (currentPositions st) (dummy st))
    as [[cs ms] d2].
  exact H.
Qed.

Lemma frames_position ts delta states data st j o p :
  nth_error data j = Some o ->
  nth_error (currentPositions st) j = Some p ->
  nth_error (currentPositions (frames ts delta states data st)) j
    = Some (moves (List.length states) (delta * 2.5) p (target ts o)).
Proof.
  intros Ho. revert st p.
  induction states as [| state rest IH]; intros st p Hp; [exact Hp |].
  cbn [frames List.length moves]. apply IH.
  apply frame_position; assumption.
Qed.

(** One step scales the distance to the target by [|1 - t|]. *)
Lemma move_distance t p tgt :
  Spec.distance (move t p tgt) tgt = Rabs (1 - t) * Spec.distance p tgt.
Proof.
  unfold Spec.distance, move. cbn [vx vy vz].
  rewrite !LerpProps.lerp_offset.
  replace (((1 - t) * (vx p - vx tgt)) ^ 2 + ((1 - t) * (vy p - vy tgt)) ^ 2
           + ((1 - t) * (vz p - vz tgt)) ^ 2)
    with ((1 - t) ^ 2
          * ((vx p - vx tgt) ^ 2 + (vy p - vy tgt) ^ 2 + (vz p - vz tgt) ^ 2))
    by ring.
  rewrite sqrt_mult_alt by apply pow2_ge_0.
  rewrite <- Rsqr_pow2, sqrt_Rsqr_abs. reflexivity.
Qed.

Lemma distance_nonneg p q : 0 <= Spec.distance p q.
Proof. apply sqrt_pos. Qed.

Lemma moves_distance_le n t p tgt :
  0 < t < 2 ->
  Spec.distance (moves n t p tgt) tgt <= Spec.distance p tgt.
Proof.
  intros Ht. revert p. induction n as [| n IH]; intros p; [cbn; lra |].
  cbn [moves]. eapply Rle_trans; [apply IH |].
  rewrite move_distance.
  pose proof (distance_nonneg p tgt).
  assert (Rabs (1 - t) < 1) by (apply Rabs_def1; lra).
  pose proof (Rabs_pos (1 - t)). nra.
Qed.

Lemma last_any_default {A} (a : A) (l : list A) (d d' : A) :
  last (a :: l) d = last (a :: l) d'.
Proof.
  revert a. induction l as [| b l IH]; intros a; [reflexivity |].
  cbn [last] in *. apply IH.
Qed.

(** The scales written by the loop form a chain through the instances. *)
Lemma loop_scales ts state delta i data cur d :
  List.length cur = List.length data ->
  scales (snd (fst (loop ts state delta i data cur d)))
    = chain (delta * 2.5) (vx (obj_scale d)) (map (targetSize ts) data) /\
  vx (obj_scale (snd (loop ts state delta i data cur d)))
    = last (chain (delta * 2.5) (vx (obj_scale d)) (map (targetSize ts) data))
        (vx (obj_scale d)).
Proof.
  revert i cur d.
  induction data as [| o rest IH]; intros i cur d Hlen.
  - destruct cur; [split; reflexivity | discriminate].
  - destruct cur as [| c cur']; [discriminate |].
    cbn [loop].
    destruct (body ts state delta i o c d) as [c1 d1] eqn:B.
    assert (Hd1 : vx (obj_scale d1)
                  = lerp (vx (obj_scale d)) (targetSize ts o) (delta * 2.5)).
    { unfold body in B. injection B as _ <-. reflexivity. }
    injection Hlen as Hlen.
    destruct (IH (S i) cur' d1 Hlen) as [IHs IHd].
    destruct (loop ts state delta (S i) rest cur' d1) as [[cs ms] d2].
    cbn [fst snd] in *. cbn [map chain scales].
    split.
    + unfold updateMatrix. cbn [m_scale]. rewrite Hd1.
      f_equal. fold (scales ms). rewrite IHs, Hd1. reflexivity.
    + rewrite IHd, Hd1.
      match goal with
      | |- last ?l _ = _ => destruct l; [reflexivity |]
      end.
      cbn [last]. apply last_any_default.
Qed.

Lemma loop_lengths ts state delta i data cur d :
  List.length cur = List.length data ->
  List.length (fst (fst (loop ts state delta i data cur d)))
    = List.length data.
Proof.
  revert i cur d.
  induction data as [| o rest IH]; intros i cur d Hlen.
  - destruct cur; reflexivity.
  - destruct cur as [| c cur']; [discriminate |].
    cbn [loop].
    destruct (body ts state delta i o c d) as [c1 d1].
    injection Hlen as Hlen. specialize (IH (S i) cur' d1 Hlen).
    destruct (loop ts state delta (S i) rest cur' d1) as [[cs ms] d2].
    cbn in *. now rewrite IH.
Qed.

(** The ref keeps one position per ornament. *)
Lemma frame_keeps_length ts state delta data st :
  List.length (currentPositions st) = List.length data ->
  List.length (currentPositions (fst (frame ts state delta data st)))
    = List.length data.
Proof.
  intros Hlen. unfold frame.
  pose proof (loop_lengths ts state delta 0 data (currentPositions st)
                (dummy st) Hlen) as H.
  destruct (loop ts state delta 0 data (currentPositions st) (dummy st))
    as [[cs ms] d2].
  exact H.
Qed.

Lemma initial_length data :
  List.length (currentPositions (initialState data)) = List.length data.
Proof. apply length_map. Qed.

(** The scales of a frame, from the scratch object the frame starts with. *)
Lemma frame_scales ts state delta data st :
  List.length (currentPositions st) = List.length data ->
  scales (snd (frame ts state delta data st))
    = chain (delta * 2.5) (vx (obj_scale (dummy st)))
        (map (targetSize ts) data) /\
  vx (obj_scale (dummy (fst (frame ts state delta data st))))
    = last (chain (delta * 2.5) (vx (obj_scale (dummy st)))
              (map (targetSize ts) data))
        (vx (obj_scale (dummy st))).
Proof.
  intros Hlen. unfold frame.
  pose proof (loop_scales ts state delta 0 data (currentPositions st)
                (dummy st) Hlen) as H.
  destruct (loop ts state delta 0 data (currentPositions st) (dummy st))
    as [[cs ms] d2].
  exact H.
Qed.

Lemma unit_distance :
  Spec.distance (mkVec3 0 0 0) (mkVec3 1 0 0) = 1.
Proof.
  unfold Spec.distance. cbn [vx vy vz].
  replace ((0 - 1) ^ 2 + (0 - 0) ^ 2 + (0 - 0) ^ 2) with (1 * 1) by ring.
  apply sqrt_square. lra.
Qed.

(** C3, as the code has it: after a flip, for a constant [delta] with
    [0 < 2.5 * delta < 2], every frame multiplies the distance of the
    interpolated position to the new target by [|1 - 2.5 * delta|]: the
    distance strictly decreases in every frame in which it is not already
    zero, never increases, and never exceeds the distance at the flip. *)
Theorem ornament_distance_decreases :
  forall (treeState : TreeState) (delta : R) (data : list OrnamentData)
         (st : State) (i : nat) (o : OrnamentData) (p : Vec3)
         (states : list RootState) (state : RootState),
    nth_error data i = Some o ->
    nth_error (currentPositions st) i = Some p ->
    0 < delta * 2.5 < 2 ->
    let tgt := target treeState o in
    let stn := frames treeState delta states data st in
    let stn1 := fst (frame treeState state delta data stn) in
    exists pn pn1,
      nth_error (currentPositions stn) i = Some pn /\
      nth_error (currentPositions stn1) i = Some pn1 /\
      Spec.distance pn1 tgt
        = Rabs (1 - delta * 2.5) * Spec.distance pn tgt /\
      (0 < Spec.distance pn tgt ->
         Spec.distance pn1 tgt < Spec.distance pn tgt) /\
      Spec.distance pn1 tgt <= Spec.distance pn tgt /\
      Spec.distance pn tgt <= Spec.distance p tgt /\
      Spec.distance pn1 tgt <= Spec.distance p tgt.
Proof.
  intros ts delta data st i o p states state Ho Hp Ht tgt stn stn1.
  pose proof (frames_position ts delta states data st i o p Ho Hp) as Hn.
  fold stn tgt in Hn.
  pose proof (frame_position ts state delta data stn i o _ Ho Hn) as Hn1.
  fold stn1 tgt in Hn1.
  do 2 eexists. split; [exact Hn |]. split; [exact Hn1 |].
  rewrite move_distance.
  set (pn := moves (List.length states) (delta * 2.5) p tgt).
  pose proof (distance_nonneg pn tgt) as Hpos.
  pose proof (moves_distance_le (List.length states) (delta * 2.5) p tgt Ht)
    as Hle.
  fold pn in Hle.
  assert (Ha : Rabs (1 - delta * 2.5) < 1) by (apply Rabs_def1; lra).
  pose proof (Rabs_pos (1 - delta * 2.5)) as Ha0.
  split; [reflexivity |].
  repeat split; nra.
Qed.

Lemma ornament_distance_decreases_witness :
  let data := [unitOrnament 1] in
  let tgt := target SCATTERED (unitOrnament 1) in
  let stn := frames SCATTERED 0.2 [rootAt 0] data (initialState data) in
  let stn1 := fst (frame SCATTERED (rootAt 0.2) 0.2 data stn) in
  exists pn pn1,
    nth_error (currentPositions stn) 0 = Some pn /\
    nth_error (currentPositions stn1) 0 = Some pn1 /\
    Spec.distance pn1 tgt = Rabs (1 - 0.2 * 2.5) * Spec.distance pn tgt /\
    (0 < Spec.distance pn tgt ->
       Spec.distance pn1 tgt < Spec.distance pn tgt) /\
    Spec.distance pn1 tgt <= Spec.distance pn tgt /\
    Spec.distance pn tgt <= Spec.distance (mkVec3 0 0 0) tgt /\
    Spec.distance pn1 tgt <= Spec.distance (mkVec3 0 0 0) tgt.
Proof.
  apply (ornament_distance_decreases SCATTERED 0.2 [unitOrnament 1]
           (initialState [unitOrnament 1]) 0 (unitOrnament 1) (mkVec3 0 0 0)
           [rootAt 0] (rootAt 0.2));
    [reflexivity | reflexivity | lra].
Defined.

(** C3 as stated fails.  With [delta = 1] the distance to the new target
    grows from 1 to 1.5 in the first frame after the flip; with
    [delta = 0.4] the target is reached in the first frame and the
    distance, zero, does not decrease in the second. *)
Lemma large_delta_moves_away :
  let data := [unitOrnament 1] in
  let tgt := target SCATTERED (unitOrnament 1) in
  let st0 := initialState data in
  (exists p0 p1,
     nth_error (currentPositions st0) 0 = Some p0 /\
     nth_error
       (currentPositions (fst (frame SCATTERED (rootAt 0) 1 data st0))) 0
       = Some p1 /\
     Spec.distance p0 tgt = 1 /\ Spec.distance p1 tgt = 1.5) /\
  (exists p1 p2,
     nth_error
       (currentPositions (fst (frame SCATTERED (rootAt 0) 0.4 data st0))) 0
       = Some p1 /\
     nth_error
       (currentPositions
          (fst (frame SCATTERED (rootAt 0.4) 0.4 data
                  (fst (frame SCATTERED (rootAt 0) 0.4 data st0))))) 0
       = Some p2 /\
     Spec.distance p1 tgt = 0 /\ Spec.distance p2 tgt = 0).
Proof.
  intros data tgt st0.
  assert (Ho : nth_error data 0 = Some (unitOrnament 1)) by reflexivity.
  assert (Hp : nth_error (currentPositions st0) 0 = Some (mkVec3 0 0 0))
    by reflexivity.
  assert (Hd : Spec.distance (mkVec3 0 0 0) tgt = 1) by apply unit_distance.
  split.
  - do 2 eexists. split; [exact Hp |].
    split; [apply (frame_position SCATTERED (rootAt 0) 1 data st0 0 _ _ Ho Hp) |].
    split; [exact Hd |].
    fold tgt. rewrite move_distance, Hd.
    rewrite Rabs_left by lra. lra.
  - pose proof (frame_position SCATTERED (rootAt 0) 0.4 data st0 0 _ _ Ho Hp)
      as H1.
    pose proof (frame_position SCATTERED (rootAt 0.4) 0.4 data _ 0 _ _ Ho H1)
      as H2.
    do 2 eexists. split; [exact H1 |]. split; [exact H2 |].
    fold tgt. rewrite !move_distance, Hd.
    replace (1 - 0.4 * 2.5) with 0 by lra.
    rewrite Rabs_R0. split; ring.
Qed.

(** C6 fails on the code: the scale of an instance is interpolated from
    the scale left in the shared scratch object, that is from the scale
    written for the instance before it (for the first instance, from the
    last instance of the frame before), not from its own previous scale.
    Two gathered ornaments of size 1 and 3 with [delta = 0.2]: the first
    frame writes the scales 1 and 2, the second 1.5 and 2.25, where
    per-instance smoothing would give 1 and 2.5. *)
Theorem ornament_scale_chained :
  let data := [unitOrnament 1; unitOrnament 3] in
  let r1 := frame CLOSED (rootAt 0) 0.2 data (initialState data) in
  let r2 := frame CLOSED (rootAt 0.2) 0.2 data (fst r1) in
  scales (snd r1) = [1; 2] /\
  scales (snd r2) = [1.5; 2.25] /\
  Spec.smoothEach (0.2 * 2.5) (scales (snd r1)) (map (targetSize CLOSED) data)
    = [1; 2.5].
Proof.
  intros data r1 r2.
  destruct (frame_scales CLOSED (rootAt 0) 0.2 data (initialState data)
              (initial_length data)) as [S1 D1].
  fold r1 in S1, D1.
  assert (L1 : List.length (currentPositions (fst r1)) = List.length data)
    by (apply frame_keeps_length, initial_length).
  destruct (frame_scales CLOSED (rootAt 0.2) 0.2 data (fst r1) L1) as [S2 _].
  fold r2 in S2.
  rewrite S2, D1, S1.
  cbn [data map chain last targetSize TreeState_eqb size unitOrnament
       initialState dummy newObject3D obj_scale vx Spec.smoothEach combine
       fst snd].
  unfold lerp, Spec.smooth.
  repeat split; repeat (f_equal; try lra).
Qed.

End OrnamentProps.

(** ** Smoothing and the frame delta *)

Module SmoothingProps.
Import Scene3D Closed Sample.

(** C9, as the code has it: [delta] enters the smoothing of the ornament
    positions, of the emblem opacity and of the camera position as it
    is, the factor being [delta * 2.5] for the ornament positions and
    [delta * 3] for the emblem opacity and the camera position; each of
    these values then lies between its own previous value and its target
    when [0 <= delta * 3 <= 1]. *)
Theorem smoothing_takes_delta_as_is :
  forall (delta : R) (treeState : TreeState) (state : RootState),
    (forall i o cur d,
       let r := EmojiLayer.body treeState state delta i o cur d in
       let tgt := EmojiLayer.target treeState o in
       fst r = mkVec3 (Spec.smooth (vx cur) (vx tgt) (delta * 2.5))
                      (Spec.smooth (vy cur) (vy tgt) (delta * 2.5))
                      (Spec.smooth (vz cur) (vz tgt) (delta * 2.5)) /\
       (0 <= delta * 3 <= 1 ->
          Spec.between (vx cur) (vx tgt) (vx (fst r)) /\
          Spec.between (vy cur) (vy tgt) (vy (fst r)) /\
          Spec.between (vz cur) (vz tgt) (vz (fst r)))) /\
    (forall opacity,
       let target := match treeState with CLOSED => 1 | SCATTERED => 0 end in
       fst (TreeTopStar.frame treeState state delta opacity)
         = Spec.smooth opacity target (delta * 3) /\
       (0 <= delta * 3 <= 1 ->
          Spec.between opacity target
            (fst (TreeTopStar.frame treeState state delta opacity)))) /\
    (forall handData target cam,
       let r := CameraController.frame handData delta target cam in
       let aim := mkVec3 (32 * sin (v2y (fst r))) (v2x (fst r) * 20 + 7)
                          (32 * cos (v2y (fst r))) in
       let old := cam_position cam in
       let new := cam_position (snd r) in
       new = mkVec3 (Spec.smooth (vx old) (vx aim) (delta * 3))
                    (Spec.smooth (vy old) (vy aim) (delta * 3))
                    (Spec.smooth (vz old) (vz aim) (delta * 3)) /\
       (0 <= delta * 3 <= 1 ->
          Spec.between (vx old) (vx aim) (vx new) /\
          Spec.between (vy old) (vy aim) (vy new) /\
          Spec.between (vz old) (vz aim) (vz new))).
Proof.
  intros delta ts state. split; [| split].
  - intros i o cur d r tgt. subst r tgt.
    unfold EmojiLayer.body, EmojiLayer.move. cbn [fst vx vy vz].
    split; [reflexivity |].
    intros Hd.
    assert (Ht : 0 <= delta * 2.5 <= 1) by lra.
    repeat split; apply LerpProps.lerp_between; exact Ht.
  - intros opacity target. subst target.
    unfold TreeTopStar.frame. cbn [fst].
    split.
    + destruct ts; reflexivity.
    + intros Hd. destruct ts; apply LerpProps.lerp_between; exact Hd.
  - intros handData target cam r aim old new. subst r aim old new.
    unfold CameraController.frame. cbn [fst snd cam_position vx vy vz].
    split; [reflexivity |].
    intros Hd. repeat split; apply LerpProps.lerp_between; exact Hd.
Qed.

Lemma smoothing_takes_delta_as_is_witness :
  Spec.between 1 0 (fst (TreeTopStar.frame SCATTERED (rootAt 0) 0.1 1)).
Proof.
  apply (proj2 (proj1 (proj2 (smoothing_takes_delta_as_is 0.1 SCATTERED
                                (rootAt 0))) 1)).
  lra.
Defined.

(** C9 as stated fails: nothing bounds [delta].  With [delta = 1] an
    ornament coordinate goes from 0 past its target 1 to 2.5, the emblem
    opacity from 1 past its target 0 to -2, and the camera height from 5
    past its target 7 to 11. *)
Lemma large_delta_overshoots :
  let none := mkHandData false (mkVec3 0 0 0) (mkVec2 0 0) false in
  let cam := camera (rootAt 0) in
  fst (EmojiLayer.body SCATTERED (rootAt 0) 1 0 (unitOrnament 1)
         (mkVec3 0 0 0) newObject3D) = mkVec3 2.5 0 0 /\
  fst (TreeTopStar.frame SCATTERED (rootAt 0) 1 1) = -2 /\
  vy (cam_position
        (snd (CameraController.frame none 1 CameraController.initialTarget cam)))
    = 11.
Proof.
  cbn. unfold EmojiLayer.move, lerp. cbn [vx vy vz].
  repeat split; try lra. f_equal; lra.
Qed.

End SmoothingProps.

(** * Further properties of the code *)

(** ** The formation machine over a stream of signals *)

Module AppStream.
Import App Aux.

Lemma run_app a b s : run (a ++ b) s = run b (run a s).
Proof. unfold run. apply fold_left_app. Qed.

Lemma step_settle h acc s :
  onHandUpdate h (settle acc s)
    = settle (if detected h then Some (isOpen h) else acc) s.
Proof.
  rewrite AppProps.onHandUpdate_effect. unfold effect.
  destruct (detected h); [| reflexivity].
  destruct (isOpen h); cbn [settle negb andb];
    destruct (settle acc s); reflexivity.
Qed.

Lemma run_settle signals acc s :
  run signals (settle acc s)
    = settle (fold_left (fun acc h => if detected h then Some (isOpen h)
                                      else acc) signals acc) s.
Proof.
  revert acc. induction signals as [| h rest IH]; intros acc; [reflexivity |].
  unfold run in *. cbn [fold_left]. rewrite step_settle. apply IH.
Qed.

(** X1: the state after a stream of signals is decided by the last signal
    that reports a hand: SCATTERED if it was open, CLOSED if not; a stream
    without such a signal leaves the state as it was. *)
Theorem run_decided_by_last_detected :
  forall (signals : list HandData) (s : TreeState),
    run signals s =
      match lastDetected signals with
      | Some true => SCATTERED
      | Some false => CLOSED
      | None => s
      end.
Proof.
  intros signals s. unfold lastDetected.
  exact (run_settle signals None s).
Qed.

(** X2: delivering a signal twice in a row is the same as delivering it once,
    wherever in the stream it happens. *)
Theorem repeated_signal_absorbed :
  forall (before after : list HandData) (h : HandData) (s : TreeState),
    run (before ++ h :: h :: after) s = run (before ++ h :: after) s.
Proof.
  intros before after h s. rewrite !run_app.
  unfold run at 1 3. cbn [fold_left].
  rewrite !AppProps.onHandUpdate_effect, AppProps.effect_settled.
  reflexivity.
Qed.

End AppStream.

(** ** What the classifier reads *)

Module ClassifierProps.
Import HandTracker Aux.

Lemma get_translate a b lms k :
  get (translate a b lms) k
    = option_map (fun l => mkLandmark (x l + a) (y l + b) (z l)) (get lms k).
Proof. unfold get, translate. apply nth_error_map. Qed.

Lemma shift_cancel p q a : p + a - (q + a) = p - q.
Proof. ring. Qed.

(** X3: moving the whole hand in the image changes the reported position by
    the same amount and nothing else: the open/closed reading and the
    rotation stay, and a hand that makes the callback raise still does. *)
Theorem classify_translation :
  forall (a b : R) (lms : list Landmark),
    classify (translate a b lms) =
      match classify lms with
      | Normal h =>
          Normal (mkHandData (isOpen h) (rotation h)
                    (mkVec2 (v2x (position h) + a) (v2y (position h) + b))
                    (detected h))
      | TypeError => TypeError
      end.
Proof.
  intros a b lms.
  unfold classify, avgDist, fingerTips. cbv [map].
  rewrite !get_translate.
  destruct (get lms 0) as [w |], (get lms 8) as [t1 |],
    (get lms 12) as [t2 |], (get lms 16) as [t3 |],
    (get lms 20) as [t4 |], (get lms 9) as [m |];
    cbn [option_map fold_left addDist bind prop x y z]; try reflexivity.
  rewrite !shift_cancel. reflexivity.
Qed.

(** X4: the classifier reads only the image coordinates of the landmarks 0,
    8, 9, 12, 16 and 20: two hands that agree there get the same
    result, whatever their depth values and their other points are. *)
Theorem classify_reads_six_points :
  forall (lms lms' : list Landmark),
    (forall k, In k [0; 8; 9; 12; 16; 20]%nat ->
               xy (get lms k) = xy (get lms' k)) ->
    classify lms = classify lms'.
Proof.
  intros lms lms' H.
  pose proof (H 0%nat ltac:(simpl; tauto)) as H0.
  pose proof (H 8%nat ltac:(simpl; tauto)) as H8.
  pose proof (H 9%nat ltac:(simpl; tauto)) as H9.
  pose proof (H 12%nat ltac:(simpl; tauto)) as H12.
  pose proof (H 16%nat ltac:(simpl; tauto)) as H16.
  pose proof (H 20%nat ltac:(simpl; tauto)) as H20.
  unfold classify, avgDist, fingerTips. cbv [map].
  unfold xy in *.
  destruct (get lms 0) as [[] |], (get lms' 0) as [[] |];
    try discriminate H0;
  destruct (get lms 8) as [[] |], (get lms' 8) as [[] |];
    try discriminate H8;
  destruct (get lms 12) as [[] |], (get lms' 12) as [[] |];
    try discriminate H12;
  destruct (get lms 16) as [[] |], (get lms' 16) as [[] |];
    try discriminate H16;
  destruct (get lms 20) as [[] |], (get lms' 20) as [[] |];
    try discriminate H20;
  destruct (get lms 9) as [[] |], (get lms' 9) as [[] |];
    try discriminate H9;
  cbn [option_map] in *;
  repeat match goal with
         | E : Some _ = Some _ |- _ => injection E as ? ?; subst
         end;
  reflexivity.
Qed.

Lemma classify_reads_six_points_witness :
  classify (Sample.flatHand 0.4)
    = classify (mkLandmark 0 0 7 :: repeat (mkLandmark 0.4 0 (-3)) 20).
Proof.
  apply classify_reads_six_points.
  intros k Hk. simpl in Hk.
  repeat (destruct Hk as [<- | Hk]; [reflexivity |]). contradiction.
Defined.

(** X5: a hand whose four fingertips are all farther than 0.35 from the wrist
    is reported open, and one whose fingertips are all within 0.35 is
    reported closed. *)
Theorem all_tips_far_or_near :
  forall (lms : list Landmark) (w t1 t2 t3 t4 m : Landmark),
    get lms 0 = Some w -> get lms 8 = Some t1 -> get lms 12 = Some t2 ->
    get lms 16 = Some t3 -> get lms 20 = Some t4 -> get lms 9 = Some m ->
    exists h,
      classify lms = Normal h /\
      (0.35 < Spec.euclidean t1 w -> 0.35 < Spec.euclidean t2 w ->
       0.35 < Spec.euclidean t3 w -> 0.35 < Spec.euclidean t4 w ->
       isOpen h = true) /\
      (Spec.euclidean t1 w <= 0.35 -> Spec.euclidean t2 w <= 0.35 ->
       Spec.euclidean t3 w <= 0.35 -> Spec.euclidean t4 w <= 0.35 ->
       isOpen h = false).
Proof.
  intros lms w t1 t2 t3 t4 m H0 H8 H12 H16 H20 H9.
  rewrite (HandTrackerProps.classify_complete lms w t1 t2 t3 t4 m)
    by assumption.
  eexists. split; [reflexivity |]. cbn [isOpen]. split.
  - intros A B C D. apply JSProps.gt_true. unfold Spec.meanDist. lra.
  - intros A B C D. apply JSProps.gt_false. unfold Spec.meanDist. lra.
Qed.

Lemma all_tips_far_or_near_witness :
  exists h, classify (Sample.flatHand 0.4) = Normal h /\ isOpen h = true.
Proof.
  destruct (all_tips_far_or_near (Sample.flatHand 0.4)
              (mkLandmark 0 0 0) (mkLandmark 0.4 0 0) (mkLandmark 0.4 0 0)
              (mkLandmark 0.4 0 0) (mkLandmark 0.4 0 0) (mkLandmark 0.4 0 0)
              eq_refl eq_refl eq_refl eq_refl eq_refl eq_refl)
    as (h & Hc & Hopen & _).
  exists h. split; [exact Hc |].
  apply Hopen; rewrite HandTrackerProps.euclidean_flat; lra.
Defined.

End ClassifierProps.

(** ** The snow volume *)

Module SnowVolume.
Import Scene3D Scene3D.Snowfall Aux.

Lemma unit_draws_shift k g : JS.unit_draws g -> JS.unit_draws (shift k g).
Proof. intros H n. apply H. Qed.

(** One flake: it stays in the volume, keeps its seed parameters, and
    the generator loses two draws exactly when the flake respawns. *)
Lemma fall_step delta s g :
  JS.unit_draws g -> 0 <= speed s * delta -> inVolume s ->
  inVolume (fst (fall delta s g)) /\
  (forall n, snd (fall delta s g) n
             = shift (if JS.lt (y s - speed s * delta * 2) (-20)
                      then 2 else 0) g n).
Proof.
  intros Hg Hsd (Hx & Hy & Hz). unfold fall.
  destruct (JS.lt (y s - speed s * delta * 2) (-20)) eqn:L.
  - cbn. pose proof (Hg 0%nat). pose proof (Hg 1%nat).
    split; [| reflexivity].
    unfold inVolume. cbn. repeat split; lra.
  - cbn. apply JSProps.lt_false in L.
    split; [| reflexivity].
    unfold inVolume. cbn. repeat split; lra.
Qed.

(** One pass of the loop over flakes that are all in the volume. *)
Lemma loop_volume state delta data g :
  JS.unit_draws g ->
  Forall (fun s => 0 <= speed s * delta /\ inVolume s) data ->
  Forall inVolume (fst (fst (loop state delta data g))) /\
  List.length (fst (fst (loop state delta data g))) = List.length data /\
  List.length (snd (fst (loop state delta data g))) = List.length data /\
  map speed (fst (fst (loop state delta data g))) = map speed data /\
  (forall n, snd (loop state delta data g) n
             = shift (2 * respawning delta data) g n).
Proof.
  revert g. induction data as [| s rest IH]; intros g Hg Hall.
  - cbn. repeat split; try constructor. 
  - inversion Hall as [| ? ? [Hsd Hin] Hrest]; subst.
    destruct (fall_step delta s g Hg Hsd Hin) as [Hv Hgen].
    cbn [loop].
    destruct (fall delta s g) as [s1 g1] eqn:F. cbn [fst snd] in Hv, Hgen.
    assert (Hg1 : JS.unit_draws g1).
    { intros n. rewrite Hgen. apply unit_draws_shift, Hg. }
    destruct (IH g1 Hg1 Hrest) as (IV & IL & IM & IS & IG).
    destruct (loop state delta rest g1) as [[ss ms] g2].
    cbn [fst snd] in *.
    split; [constructor; assumption |].
    split; [cbn; now rewrite IL |].
    split; [cbn; now rewrite IM |].
    split.
    { cbn [map]. rewrite IS. f_equal.
      unfold fall in F.
      destruct (JS.lt (y s - speed s * delta * 2) (-20));
        injection F as <- _; reflexivity. }
    intros n. rewrite IG. unfold respawning. cbn [filter].
    unfold shift at 1. rewrite Hgen.
    destruct (JS.lt (y s - speed s * delta * 2) (-20)); cbn [List.length];
      unfold shift; f_equal; lia.
Qed.

(** X6: flakes that are inside the volume [-30, 30) x [-20, 35) x [-30, 30) and
    do not rise stay inside it in every frame; the frame keeps the number
    of flakes, stores one matrix per flake and leaves every speed as it
    was. *)
Theorem snow_stays_in_volume :
  forall (state : RootState) (delta : R) (data : list Flake) (g : JS.Rng),
    JS.unit_draws g ->
    Forall (fun s => 0 <= speed s * delta /\ inVolume s) data ->
    let r := frame state delta data g in
    Forall inVolume (fst (fst r)) /\
    List.length (fst (fst r)) = List.length data /\
    List.length (snd (fst r)) = List.length data /\
    map speed (fst (fst r)) = map speed data.
Proof.
  intros state delta data g Hg Hall r. subst r. unfold frame.
  destruct (loop_volume state delta data g Hg Hall) as (A & B & C & D & _).
  repeat split; assumption.
Qed.

Lemma snow_stays_in_volume_witness :
  let s := mkFlake 3 (-19.9) 4 1 0 0.1 0 in
  Forall inVolume
    (fst (fst (frame (Sample.rootAt 0) 0.1 [s] (fun _ => 0.5)))).
Proof.
  intros s.
  apply (snow_stays_in_volume (Sample.rootAt 0) 0.1 [s] (fun _ => 0.5)).
  - intros n. lra.
  - constructor; [| constructor].
    unfold inVolume. cbn. repeat split; lra.
Defined.

(** X7: a frame takes two draws from the generator for every flake that
    respawns and none otherwise. *)
Theorem snow_draws_two_per_respawn :
  forall (state : RootState) (delta : R) (data : list Flake) (g : JS.Rng)
         (n : nat),
    snd (frame state delta data g) n
      = shift (2 * respawning delta data) g n.
Proof.
  intros state delta data g. unfold frame.
  revert g. induction data as [| s rest IH]; intros g n; [reflexivity |].
  cbn [loop].
  destruct (fall delta s g) as [s1 g1] eqn:F.
  specialize (IH g1 n).
  destruct (loop state delta rest g1) as [[ss ms] g2].
  cbn [fst snd] in *. rewrite IH.
  unfold respawning. cbn [filter]. unfold fall in F.
  destruct (JS.lt (y s - speed s * delta * 2) (-20)).
  - injection F as _ <-. cbn [List.length]. unfold shift. cbn. f_equal. lia.
  - injection F as _ <-. reflexivity.
Qed.

Lemma seeds_in_volume n g :
  JS.unit_draws g ->
  List.length (fst (seeds n g)) = n /\
  Forall (fun s => 0.3 <= speed s < 1.5 /\ inVolume s) (fst (seeds n g)).
Proof.
  revert g. induction n as [| n IH]; intros g Hg;
    [split; [reflexivity | constructor] |].
  cbn [seeds].
  pose proof (SnowProps.seed_bounds g Hg) as B. cbn zeta in B.
  destruct (seed g) as [f g1] eqn:S0.
  assert (Hg1 : JS.unit_draws g1).
  { unfold seed, JS.Math_random in S0. injection S0 as _ <-.
    intros k. apply Hg. }
  destruct (IH g1 Hg1) as [IL IF].
  destruct (seeds n g1) as [fs g2]. cbn [fst] in *.
  split; [cbn; now rewrite IL |].
  constructor; [| exact IF].
  destruct B as (Bx & By & Bz & Bs).
  split; [exact Bs |]. unfold inVolume. repeat split; lra.
Qed.

(** X8: the seed data has 100 flakes, all inside the volume and with a
    speed in [0.3, 1.5); so from the start every frame with a [delta]
    that is not negative keeps all flakes inside the volume. *)
Theorem seeded_snow_in_volume :
  forall (g : JS.Rng) (state : RootState) (delta : R),
    JS.unit_draws g ->
    0 <= delta ->
    let data := fst (emojiData g) in
    let g' := snd (emojiData g) in
    List.length data = 100%nat /\
    Forall (fun s => 0.3 <= speed s < 1.5 /\ inVolume s) data /\
    Forall inVolume (fst (fst (frame state delta data g'))).
Proof.
  intros g state delta Hg Hd data g'. subst data g'. unfold emojiData.
  destruct (seeds_in_volume emojiCount g Hg) as [HL HF].
  split; [exact HL |]. split; [exact HF |].
  unfold frame. apply loop_volume.
  - clear HL HF. generalize emojiCount as n. revert g Hg.
    intros g Hg n. revert g Hg.
    induction n as [| n IH]; intros g Hg; [exact Hg |].
    cbn [seeds]. destruct (seed g) as [f g1] eqn:S0.
    assert (Hg1 : JS.unit_draws g1).
    { unfold seed, JS.Math_random in S0. injection S0 as _ <-.
      intros k. apply Hg. }
    specialize (IH g1 Hg1). destruct (seeds n g1) as [fs g2]. exact IH.
  - eapply Forall_impl; [| exact HF].
    intros s [Hs Hv]. split; [nra | exact Hv].
Qed.

Lemma seeded_snow_in_volume_witness :
  List.length (fst (emojiData (fun _ => 0.5))) = 100%nat.
Proof.
  apply (seeded_snow_in_volume (fun _ => 0.5) (Sample.rootAt 0) 0.1).
  - intros n. lra.
  - lra.
Defined.

(** X9: the matrix stored for a flake is at the height of the flake, within
    0.1 of it sideways, and has twice the size of the flake as scale. *)
Theorem snow_matrix_near_flake :
  forall (state : RootState) (s : Flake),
    let m := place state s in
    vy (m_position m) = y s /\
    Rabs (vx (m_position m) - x s) <= 0.1 /\
    Rabs (vz (m_position m) - z s) <= 0.1 /\
    m_scale m = mkVec3 (size s * 2) (size s * 2) (size s * 2) /\
    m_quaternion m = cam_quaternion (camera state).
Proof.
  intros state s m. subst m. unfold place. cbn.
  pose proof (SIN_bound (elapsedTime state * 0.4 + offset s)).
  pose proof (COS_bound (elapsedTime state * 0.3 + offset s)).
  repeat split; try reflexivity; apply Rabs_le; lra.
Qed.

End SnowVolume.

(** ** Ornaments: what a frame draws *)

Module OrnamentDraw.
Import Scene3D Scene3D.EmojiLayer Closed Aux.

Lemma loop_matrix ts state delta i data cur d j o p :
  nth_error data j = Some o ->
  nth_error cur j = Some p ->
  exists m,
    nth_error (snd (fst (loop ts state delta i data cur d))) j = Some m /\
    m_position m
      = display ts (elapsedTime state) (i + j)
          (move (delta * 2.5) p (target ts o)) /\
    m_quaternion m = cam_quaternion (camera state).
Proof.
  revert i cur d j.
  induction data as [| o0 rest IH]; intros i cur d j Ho Hp.
  - destruct j; discriminate.
  - destruct cur as [| c cur']; [destruct j; discriminate |].
    cbn [loop].
    destruct (body ts state delta i o0 c d) as [c1 d1] eqn:B.
    destruct (loop ts state delta (S i) rest cur' d1) as [[cs ms] d2] eqn:L.
    destruct j as [| j].
    + injection Ho as ->. injection Hp as ->.
      unfold body in B. injection B as _ <-.
      eexists. split; [reflexivity |].
      unfold updateMatrix. cbn. rewrite Nat.add_0_r. split; reflexivity.
    + cbn in Ho, Hp. destruct (IH (S i) cur' d1 j Ho Hp) as (m & Hm & Hpos & Hq).
      rewrite L in Hm. exists m. split; [exact Hm |].
      replace (i + S j)%nat with (S i + j)%nat by lia.
      split; assumption.
Qed.

Lemma loop_matrix_count ts state delta i data cur d :
  List.length cur = List.length data ->
  List.length (snd (fst (loop ts state delta i data cur d)))
    = List.length data.
Proof.
  revert i cur d.
  induction data as [| o rest IH]; intros i cur d Hlen.
  - destruct cur; reflexivity.
  - destruct cur as [| c cur']; [discriminate |].
    cbn [loop].
    destruct (body ts state delta i o c d) as [c1 d1].
    injection Hlen as Hlen. specialize (IH (S i) cur' d1 Hlen).
    destruct (loop ts state delta (S i) rest cur' d1) as [[cs ms] d2].
    cbn in *. now rewrite IH.
Qed.

(** X10: a layer that holds one position per ornament keeps doing so, and a
    frame stores one matrix per ornament: instance [j] is drawn facing the
    camera at the displayed image of its interpolated position. *)
Theorem layer_frame_draws_every_ornament :
  forall (treeState : TreeState) (state : RootState) (delta : R)
         (data : list OrnamentData) (st : State),
    List.length (currentPositions st) = List.length data ->
    let r := frame treeState state delta data st in
    List.length (currentPositions (fst r)) = List.length data /\
    List.length (snd r) = List.length data /\
    (forall j o p,
       nth_error data j = Some o ->
       nth_error (currentPositions st) j = Some p ->
       exists m,
         nth_error (snd r) j = Some m /\
         m_position m
           = display treeState (elapsedTime state) j
               (move (delta * 2.5) p (target treeState o)) /\
         m_quaternion m = cam_quaternion (camera state)).
Proof.
  intros ts state delta data st Hlen r. subst r.
  split; [apply OrnamentProps.frame_keeps_length; exact Hlen |].
  unfold frame.
  pose proof (loop_matrix_count ts state delta 0 data (currentPositions st)
                (dummy st) Hlen) as Hc.
  pose proof (fun j o p => loop_matrix ts state delta 0 data
                             (currentPositions st) (dummy st) j o p) as Hm.
  destruct (loop ts state delta 0 data (currentPositions st) (dummy st))
    as [[cs ms] d2].
  cbn [fst snd] in *. split; [exact Hc |]. exact Hm.
Qed.

Lemma layer_frame_draws_every_ornament_witness :
  let data := [Sample.unitOrnament 1; Sample.unitOrnament 3] in
  List.length
    (snd (frame CLOSED (Sample.rootAt 0) 0.1 data (initialState data)))
    = 2%nat.
Proof.
  intros data.
  exact (proj1 (proj2 (layer_frame_draws_every_ornament CLOSED
                         (Sample.rootAt 0) 0.1 data (initialState data)
                         eq_refl))).
Defined.

(** X11: while gathered the displayed position is the interpolated one turned
    about the vertical axis: same height, same distance from the axis,
    and at clock time 0 the very same point.  While scattered every
    coordinate is within 0.015 of the interpolated one. *)
Theorem display_is_turn_or_jitter :
  forall (time : R) (i : nat) (p : Vec3),
    (vy (display CLOSED time i p) = vy p /\
     axisDist2 (display CLOSED time i p) = axisDist2 p /\
     display CLOSED 0 i p = p) /\
    (Rabs (vx (display SCATTERED time i p) - vx p) <= 0.015 /\
     Rabs (vy (display SCATTERED time i p) - vy p) <= 0.015 /\
     Rabs (vz (display SCATTERED time i p) - vz p) <= 0.015).
Proof.
  intros time i p. unfold display. cbn [TreeState_eqb]. split.
  - split; [reflexivity |]. split.
    + unfold axisDist2. cbn [vx vz].
      pose proof (sin2_cos2 (time * TREE_ROTATION_SPEED)) as H.
      unfold Rsqr in H. nra.
    + replace (0 * TREE_ROTATION_SPEED) with 0 by ring.
      rewrite sin_0, cos_0. destruct p as [a b c]. cbn. f_equal; ring.
  - cbn [vx vy vz].
    pose proof (SIN_bound (time * 0.4 + INR i)).
    pose proof (COS_bound (time * 0.5 + INR i)).
    pose proof (SIN_bound (time * 0.6 + INR i)).
    repeat split; apply Rabs_le; lra.
Qed.

Lemma moves_offset n t p tgt :
  vx (moves n t p tgt) - vx tgt = (1 - t) ^ n * (vx p - vx tgt) /\
  vy (moves n t p tgt) - vy tgt = (1 - t) ^ n * (vy p - vy tgt) /\
  vz (moves n t p tgt) - vz tgt = (1 - t) ^ n * (vz p - vz tgt).
Proof.
  revert p. induction n as [| n IH]; intros p.
  - cbn. repeat split; ring.
  - cbn [moves]. destruct (IH (move t p tgt)) as (Hx & Hy & Hz).
    rewrite Hx, Hy, Hz. unfold move. cbn [vx vy vz pow].
    rewrite !LerpProps.lerp_offset. repeat split; ring.
Qed.

(** X12: after [n] frames with the same tree state and the same [delta], what
    separates an interpolated position from its target is the separation
    at the start times [(1 - 2.5 * delta) ^ n], in each coordinate; an
    ornament that is at its target stays there for any [delta]. *)
Theorem ornament_offset_after_frames :
  forall (treeState : TreeState) (delta : R) (states : list RootState)
         (data : list OrnamentData) (st : State) (j : nat)
         (o : OrnamentData) (p : Vec3),
    nth_error data j = Some o ->
    nth_error (currentPositions st) j = Some p ->
    let tgt := target treeState o in
    let k := (1 - delta * 2.5) ^ List.length states in
    exists q,
      nth_error (currentPositions (frames treeState delta states data st)) j
        = Some q /\
      vx q - vx tgt = k * (vx p - vx tgt) /\
      vy q - vy tgt = k * (vy p - vy tgt) /\
      vz q - vz tgt = k * (vz p - vz tgt) /\
      (p = tgt -> q = tgt).
Proof.
  intros ts delta states data st j o p Ho Hp tgt k.
  eexists. split; [apply OrnamentProps.frames_position; eassumption |].
  fold tgt.
  destruct (moves_offset (List.length states) (delta * 2.5) p tgt)
    as (Hx & Hy & Hz).
  fold k in Hx, Hy, Hz.
  split; [exact Hx |]. split; [exact Hy |]. split; [exact Hz |].
  intros ->.
  destruct (moves (List.length states) (delta * 2.5) tgt tgt) as [a b c].
  destruct tgt as [ta tb tc]. cbn [vx vy vz] in *.
  f_equal; lra.
Qed.

Lemma ornament_offset_after_frames_witness :
  let data := [Sample.unitOrnament 1] in
  exists q,
    nth_error
      (currentPositions
         (frames SCATTERED 0.2 [Sample.rootAt 0; Sample.rootAt 0.2] data
            (initialState data))) 0 = Some q /\
    vx q - 1 = (1 - 0.2 * 2.5) ^ 2 * (0 - 1).
Proof.
  intros data.
  destruct (ornament_offset_after_frames SCATTERED 0.2
              [Sample.rootAt 0; Sample.rootAt 0.2] data (initialState data)
              0 (Sample.unitOrnament 1) (mkVec3 0 0 0) eq_refl eq_refl)
    as (q & Hq & Hx & _).
  exists q. split; [exact Hq | exact Hx].
Defined.

Lemma chain_bounded t lo hi prev targets :
  0 <= t <= 1 -> lo <= prev <= hi ->
  Forall (fun s => lo <= s <= hi) targets ->
  Forall (fun s => lo <= s <= hi) (chain t prev targets) /\
  lo <= last (chain t prev targets) prev <= hi.
Proof.
  intros Ht. revert prev.
  induction targets as [| s rest IH]; intros prev Hp Hall.
  - split; [constructor | exact Hp].
  - inversion Hall as [| ? ? Hs Hrest]; subst.
    assert (Hv : lo <= lerp prev s t <= hi) by (unfold lerp; split; nra).
    destruct (IH (lerp prev s t) Hv Hrest) as [IHf IHl].
    cbn [chain]. split; [constructor; assumption |].
    remember (chain t (lerp prev s t) rest) as l eqn:C.
    destruct l as [| r0 l]; [exact Hv |].
    change (last (lerp prev s t :: r0 :: l) prev) with (last (r0 :: l) prev).
    rewrite (OrnamentProps.last_any_default r0 l prev (lerp prev s t)).
    exact IHl.
Qed.

(** X13: with [0 <= 2.5 * delta <= 1], if the scale left in the scratch object
    and all target sizes of the layer lie in an interval, so do all the
    scales the frame writes and the scale it leaves in the scratch
    object: the chained scales never leave the range of the sizes. *)
Theorem layer_scales_stay_in_range :
  forall (treeState : TreeState) (state : RootState) (delta lo hi : R)
         (data : list OrnamentData) (st : State),
    List.length (currentPositions st) = List.length data ->
    0 <= delta * 2.5 <= 1 ->
    lo <= vx (obj_scale (dummy st)) <= hi ->
    Forall (fun o => lo <= targetSize treeState o <= hi) data ->
    let r := frame treeState state delta data st in
    Forall (fun s => lo <= s <= hi) (scales (snd r)) /\
    lo <= vx (obj_scale (dummy (fst r))) <= hi.
Proof.
  intros ts state delta lo hi data st Hlen Ht Hd Hall r. subst r.
  destruct (OrnamentProps.frame_scales ts state delta data st Hlen)
    as [-> ->].
  apply chain_bounded; try assumption.
  apply Forall_map. exact Hall.
Qed.

Lemma layer_scales_stay_in_range_witness :
  let data := [Sample.unitOrnament 1; Sample.unitOrnament 3] in
  Forall (fun s => 1 <= s <= 3)
    (scales (snd (frame CLOSED (Sample.rootAt 0) 0.2 data
                    (initialState data)))).
Proof.
  intros data.
  apply (layer_scales_stay_in_range CLOSED (Sample.rootAt 0) 0.2 1 3 data
           (initialState data) eq_refl).
  - lra.
  - cbn. lra.
  - repeat constructor; cbn; lra.
Defined.

End OrnamentDraw.

(** ** Meteors: orbit and size *)

Module MeteorOrbit.
Import Scene3D Scene3D.MeteorShower Aux.

Lemma circle_point r t : (cos t * r) ^ 2 + (sin t * r) ^ 2 = r ^ 2.
Proof.
  pose proof (sin2_cos2 t) as H. unfold Rsqr in H.
  replace ((cos t * r) ^ 2 + (sin t * r) ^ 2)
    with (r ^ 2 * (sin t * sin t + cos t * cos t)) by ring.
  rewrite H. ring.
Qed.

(** X14: every meteor is drawn facing the camera on a circle about the
    vertical axis, of radius 25 while scattered and
    [TREE_RADIUS * 1.1 + radiusOffset] while gathered, at a height within 2
    of its [yOffset]; its scale lies between 0.7 and 1.3 times
    [size * factor], factor 1 gathered and 0.3 scattered. *)
Theorem meteor_orbit_and_pulse :
  forall (treeState : TreeState) (state : RootState) (data : list Meteor)
         (i : nat) (m : Meteor),
    nth_error data i = Some m ->
    0 <= size m ->
    let radius := match treeState with
                  | CLOSED => TREE_RADIUS * 1.1 + radiusOffset m
                  | SCATTERED => 25
                  end in
    let factor := match treeState with CLOSED => 1 | SCATTERED => 0.3 end in
    exists mat,
      nth_error (frame treeState state data) i = Some mat /\
      axisDist2 (m_position mat) = radius ^ 2 /\
      Rabs (vy (m_position mat) - yOffset m) <= 2 /\
      m_quaternion mat = cam_quaternion (camera state) /\
      0.7 * (size m * factor) <= vx (m_scale mat) <= 1.3 * (size m * factor).
Proof.
  intros ts state data i m Hi Hsz radius factor.
  eexists. split; [unfold frame; apply map_nth_error; exact Hi |].
  unfold body. cbn [m_position m_quaternion m_scale vx vy vz axisDist2].
  unfold axisDist2. cbn [vx vz].
  set (t := elapsedTime state * speed m + phase m).
  pose proof (sin2_cos2 t) as Hsc. unfold Rsqr in Hsc.
  pose proof (SIN_bound (elapsedTime state * 0.5 + phase m)) as Hd.
  pose proof (SIN_bound (elapsedTime state * 3 + phase m)) as Hp.
  subst radius factor.
  split; [destruct ts; cbn [TreeState_eqb]; apply circle_point |].
  split; [apply Rabs_le; lra |].
  split; [reflexivity |].
  destruct ts; cbn [TreeState_eqb]; split; nra.
Qed.

Lemma meteor_orbit_and_pulse_witness :
  let m := mkMeteor 0 1 0 1 0.1 0 in
  exists mat,
    nth_error (frame SCATTERED (Sample.rootAt 2) [m]) 0 = Some mat /\
    axisDist2 (m_position mat) = 25 ^ 2.
Proof.
  intros m.
  destruct (meteor_orbit_and_pulse SCATTERED (Sample.rootAt 2) [m] 0 m
              eq_refl ltac:(cbn; lra))
    as (mat & Hn & Ha & _).
  exists mat. split; [exact Hn | exact Ha].
Defined.

Lemma seed_ranges g :
  JS.unit_draws g ->
  let m := fst (seed g) in
  0 <= phase m < 2 * PI /\ 0.3 <= speed m < 1.5 /\
  -8.4 <= yOffset m < 8.4 /\ 0.5 <= radiusOffset m < 3.5 /\
  0.04 <= size m < 0.12 /\ -0.1 <= verticalSpeed m < 0.1.
Proof.
  intros H. cbn.
  pose proof (H 0%nat). pose proof (H 1%nat). pose proof (H 2%nat).
  pose proof (H 3%nat). pose proof (H 4%nat). pose proof (H 5%nat).
  pose proof PI_RGT_0. unfold TREE_HEIGHT.
  repeat split; nra.
Qed.

Lemma seed_generator g :
  JS.unit_draws g -> JS.unit_draws (snd (seed g)).
Proof. intros H n. cbn. apply H. Qed.

Lemma seeds_ranges n g :
  JS.unit_draws g ->
  List.length (fst (seeds n g)) = n /\
  Forall (fun m => 0.5 <= radiusOffset m < 3.5 /\ 0.04 <= size m < 0.12)
    (fst (seeds n g)).
Proof.
  revert g. induction n as [| n IH]; intros g Hg; [split; [reflexivity | constructor] |].
  cbn [seeds].
  pose proof (seed_ranges g Hg) as B. cbn zeta in B.
  pose proof (seed_generator g Hg) as Hg1.
  destruct (seed g) as [m g1]. cbn [fst snd] in *.
  destruct (IH g1 Hg1) as [IL IF].
  destruct (seeds n g1) as [ms g2]. cbn [fst] in *.
  split; [cbn; now rewrite IL |].
  constructor; [| exact IF]. tauto.
Qed.

(** X15: the seed data has 300 meteors; each of them orbits, while gathered,
    outside the tree (radius 6) and inside the scattered orbit (radius
    25), and its scale is positive and below 0.16 in every frame. *)
Theorem seeded_meteors_orbit_outside_tree :
  forall (g : JS.Rng) (treeState : TreeState) (state : RootState),
    JS.unit_draws g ->
    let data := fst (meteorData g) in
    List.length data = 300%nat /\
    Forall (fun m => TREE_RADIUS < TREE_RADIUS * 1.1 + radiusOffset m < 25)
      data /\
    Forall (fun mat => 0 < vx (m_scale mat) < 0.16)
      (frame treeState state data).
Proof.
  intros g ts state Hg data. subst data. unfold meteorData.
  destruct (seeds_ranges count g Hg) as [HL HF].
  split; [exact HL |]. split.
  - eapply Forall_impl; [| exact HF].
    intros m [Hr _]. unfold TREE_RADIUS. lra.
  - unfold frame. apply Forall_map.
    eapply Forall_impl; [| exact HF].
    intros m [_ Hs]. unfold body. cbn [m_scale vx].
    pose proof (SIN_bound (elapsedTime state * 3 + phase m)).
    destruct ts; cbn [TreeState_eqb]; split; nra.
Qed.

Lemma seeded_meteors_orbit_outside_tree_witness :
  List.length (fst (meteorData (fun _ => 0.5))) = 300%nat.
Proof.
  apply (seeded_meteors_orbit_outside_tree (fun _ => 0.5) CLOSED
           (Sample.rootAt 0)).
  intros n. lra.
Defined.

End MeteorOrbit.

(** ** Ripples: every ring *)

Module RippleRings.
Import Scene3D Scene3D.BaseRipple Aux.

(** X16: a ring is invisible before its start time [ringIndex * 0.9]; from
    then on an instance with a random offset that is not negative is
    visible exactly while the time since the start, modulo 6.5, is below
    3.  No scale is ever negative or above [0.08 + randomOffset * 0.15]. *)
Theorem ring_visible_iff_in_window :
  forall (time : R) (isClosed : bool) (r : Ripple) (d : Object3D),
    0 <= randomOffset r ->
    let start := INR (ringIndex r) * 0.9 in
    exists s,
      obj_scale (body time isClosed r d) = mkVec3 s s s /\
      0 <= s <= 0.08 + randomOffset r * 0.15 /\
      (time < start -> s = 0) /\
      (forall m, start <= time -> Spec.is_mod (time - start) 6.5 m ->
                 (0 < s <-> m < 3)).
Proof.
  intros time c r d Hoff start. subst start.
  unfold body. fold staggerTime.
  set (st := INR (ringIndex r) * staggerTime).
  destruct (JS.lt time st) eqn:L.
  - apply JSProps.lt_true in L.
    exists 0. cbn. split; [reflexivity |]. split; [lra |].
    split; [reflexivity |]. intros m Hge. unfold staggerTime in *. lra.
  - apply JSProps.lt_false in L.
    assert (Hrem : Spec.is_mod (time - st) cycleDuration
                     (JS.rem (time - st) cycleDuration)).
    { apply JSProps.rem_is_mod; [lra | unfold cycleDuration; lra]. }
    set (ct := JS.rem (time - st) cycleDuration) in *.
    assert (Hct : 0 <= ct) by (destruct Hrem as (_ & _ & H & _); exact H).
    replace (JS.lt (ct / 3.0) 0) with false
      by (symmetry; apply JSProps.lt_false; lra).
    destruct (JS.gt (ct / 3.0) 1.0) eqn:G; cbn [orb].
    + apply JSProps.gt_true in G.
      exists 0. cbn. split; [reflexivity |]. split; [lra |].
      split; [reflexivity |]. intros m _ Hm.
      assert (m = ct) by (eapply JSProps.is_mod_unique; eassumption).
      subst m. split; intros; lra.
    + apply JSProps.gt_false in G.
      eexists. cbn [obj_scale]. split; [reflexivity |].
      unfold JS.Math_max, Rmax.
      destruct (Rle_dec 0 (1 - ct / 3.0)) as [P | N]; [| lra].
      split; [split; nra |].
      split; [intros; unfold st, staggerTime in *; lra |].
      intros m _ Hm.
      assert (m = ct) by (eapply JSProps.is_mod_unique; eassumption).
      subst m. split; intros; nra.
Qed.

Lemma ring_visible_iff_in_window_witness :
  exists s,
    obj_scale (body 1 true (mkRipple 2 0 0.25 1) newObject3D) = mkVec3 s s s /\
    s = 0.
Proof.
  destruct (ring_visible_iff_in_window 1 true (mkRipple 2 0 0.25 1)
              newObject3D ltac:(cbn; lra))
    as (s & Hs & _ & Hbefore & _).
  exists s. split; [exact Hs |]. apply Hbefore. cbn. lra.
Defined.

(** X17: a ripple inside its active window lies flat on the plane below the
    tree ([y = -7.5]) on a circle about the axis whose radius grows from
    [randomOffset * 10] by at most the base radius: 28 gathered, 55
    scattered. *)
Theorem active_ripple_on_ground_circle :
  forall (time : R) (isClosed : bool) (r : Ripple) (d : Object3D) (m : R),
    INR (ringIndex r) * 0.9 <= time ->
    Spec.is_mod (time - INR (ringIndex r) * 0.9) 6.5 m ->
    m <= 3 ->
    let base := if isClosed then 28 else 55 in
    let o := body time isClosed r d in
    exists radius,
      randomOffset r * 10 <= radius <= base + randomOffset r * 10 /\
      axisDist2 (obj_position o) = radius ^ 2 /\
      vy (obj_position o) = -7.5 /\
      obj_quaternion o = QEuler (- PI / 2) 0 0.
Proof.
  intros time c r d m Hstart Hm Hwin base o. subst o.
  unfold body. fold staggerTime in Hstart, Hm.
  set (st := INR (ringIndex r) * staggerTime) in *.
  replace (JS.lt time st) with false
    by (symmetry; apply JSProps.lt_false; lra).
  assert (Hrem : JS.rem (time - st) cycleDuration = m).
  { apply JSProps.is_mod_unique with (time - st) cycleDuration; [| exact Hm].
    apply JSProps.rem_is_mod; [lra | unfold cycleDuration; lra]. }
  rewrite Hrem. clear Hrem.
  destruct Hm as (_ & _ & Hm0 & _).
  replace (JS.lt (m / 3.0) 0) with false
    by (symmetry; apply JSProps.lt_false; lra).
  replace (JS.gt (m / 3.0) 1.0) with false
    by (symmetry; apply JSProps.gt_false; lra).
  cbn [orb obj_position obj_quaternion vy].
  set (p := m / 3.0).
  assert (Hp : 0 <= p <= 1) by (unfold p; lra).
  set (ease := 1 - JS.Math_pow (1 - p) 4).
  assert (He : 0 <= ease <= 1).
  { unfold ease, JS.Math_pow.
    assert (0 <= (1 - p) ^ 4 <= 1).
    { split; [apply pow_le; lra |].
      replace 1 with (1 ^ 4) at 2 by ring. apply pow_incr. lra. }
    lra. }
  exists (ease * (if c then 28 else 55) + randomOffset r * 10).
  split.
  - subst base. destruct c; split; nra.
  - split.
    + unfold axisDist2. cbn [vx vz]. apply MeteorOrbit.circle_point.
    + split; [unfold TREE_HEIGHT; lra | reflexivity].
Qed.

Lemma active_ripple_on_ground_circle_witness :
  exists radius,
    axisDist2 (obj_position (body 1.5 true (mkRipple 0 0 0.25 1) newObject3D))
      = radius ^ 2.
Proof.
  assert (Hm : Spec.is_mod (1.5 - INR 0 * 0.9) 6.5 1.5).
  { exists 0%Z. cbn. split; lra. }
  destruct (active_ripple_on_ground_circle 1.5 true (mkRipple 0 0 0.25 1)
              newObject3D 1.5 ltac:(cbn; lra) Hm ltac:(lra))
    as (radius & _ & Ha & _).
  exists radius. exact Ha.
Defined.

Lemma seeds_length indices g :
  List.length (fst (seeds indices g)) = List.length indices.
Proof.
  revert g. induction indices as [| i rest IH]; intros g; [reflexivity |].
  cbn [seeds]. destruct (seed i g) as [r g1].
  specialize (IH g1). destruct (seeds rest g1) as [rs g2].
  cbn in *. now rewrite IH.
Qed.

Lemma seeds_layout indices g :
  JS.unit_draws g ->
  Forall2 (fun i r =>
             ringIndex r = (i / particlesPerRing)%nat /\
             angle r = INR (i mod particlesPerRing) / 450 * PI * 2 /\
             0 <= angle r < 2 * PI /\ 0 <= randomOffset r < 0.5)
    indices (fst (seeds indices g)).
Proof.
  revert g. induction indices as [| i rest IH]; intros g Hg; [constructor |].
  cbn [seeds]. unfold seed, JS.Math_random.
  specialize (IH (fun n => g (S (S n))) (fun n => Hg (S (S n)))).
  destruct (seeds rest (fun n => g (S (S n)))) as [rs g2].
  cbn [fst] in *. constructor; [| exact IH].
  cbn [ringIndex randomOffset angle]. pose proof (Hg 0%nat).
  assert (Hmod : (i mod particlesPerRing < particlesPerRing)%nat)
    by (apply Nat.mod_upper_bound; discriminate).
  apply lt_INR in Hmod.
  pose proof (pos_INR (i mod particlesPerRing)) as Hpos.
  replace (INR particlesPerRing) with 450 in *
    by (unfold particlesPerRing; rewrite INR_IZR_INZ; reflexivity).
  pose proof PI_RGT_0.
  split; [reflexivity |]. split; [reflexivity |].
  split; [| lra].
  set (q := INR (i mod particlesPerRing) / 450).
  assert (0 <= q < 1) by (unfold q; split; lra).
  split; nra.
Qed.

(** X18: the seed data has 6 x 450 = 2700 ripples; instance [i] belongs to
    ring [i / 450], which is below 6, at the angle
    [(i mod 450) / 450 * 2 PI] in [0, 2 PI), with a random offset in
    [0, 0.5). *)
Theorem ripple_seed_layout :
  forall (g : JS.Rng) (i : nat) (r : Ripple),
    JS.unit_draws g ->
    List.length (fst (rippleData g)) = 2700%nat /\
    (nth_error (fst (rippleData g)) i = Some r ->
     (i < 2700)%nat /\
     ringIndex r = (i / 450)%nat /\ (ringIndex r < 6)%nat /\
     angle r = INR (i mod 450) / 450 * PI * 2 /\
     0 <= angle r < 2 * PI /\ 0 <= randomOffset r < 0.5).
Proof.
  intros g i r Hg. unfold rippleData.
  assert (HL : List.length (fst (seeds (seq 0 totalCount) g)) = 2700%nat).
  { rewrite seeds_length, length_seq. reflexivity. }
  split; [exact HL |]. intros Hr.
  assert (Hlt : (i < 2700)%nat).
  { rewrite <- HL. apply nth_error_Some. rewrite Hr. discriminate. }
  destruct (RippleProps.Forall2_lookup _ _ _ i r
              (seeds_layout (seq 0 totalCount) g Hg) Hr)
    as (k & Hk & Hring & Hang & Hrange & Hoff).
  apply (nth_error_nth _ _ 0%nat) in Hk.
  rewrite seq_nth in Hk by exact Hlt. cbn in Hk. subst k.
  unfold particlesPerRing in *.
  split; [exact Hlt |]. split; [exact Hring |].
  split; [rewrite Hring; apply Nat.Div0.div_lt_upper_bound; lia |].
  split; [exact Hang |]. split; assumption.
Qed.

Lemma ripple_seed_layout_witness :
  List.length (fst (rippleData (fun _ => 0.5))) = 2700%nat.
Proof.
  apply (ripple_seed_layout (fun _ => 0.5) 0 (mkRipple 0 0 0 0)).
  intros n. lra.
Defined.

End RippleRings.

(** ** The emblem *)

Module StarProps.
Import Scene3D Scene3D.TreeTopStar.

(** X19: the group is never scaled below 0.001 and turns with the clock at
    [TREE_ROTATION_SPEED].  With [0 <= 3 * delta <= 1] an opacity in [0, 1]
    stays in [0, 1], does not fall while gathered and does not rise while
    scattered, and the scale is then the larger of 0.001 and the
    opacity. *)
Theorem star_fades_within_bounds :
  forall (treeState : TreeState) (state : RootState) (delta opacity : R),
    let r := frame treeState state delta opacity in
    0.001 <= vx (group_scale (snd r)) /\
    rotation_y (snd r) = elapsedTime state * 0.3 /\
    material_opacity (snd r) = fst r /\
    (0 <= delta * 3 <= 1 -> 0 <= opacity <= 1 ->
       0 <= fst r <= 1 /\
       (treeState = CLOSED -> opacity <= fst r) /\
       (treeState = SCATTERED -> fst r <= opacity) /\
       vx (group_scale (snd r)) <= 1).
Proof.
  intros ts state delta op r. subst r. unfold frame.
  cbn [fst snd group_scale rotation_y material_opacity vx].
  unfold JS.Math_max, TREE_ROTATION_SPEED.
  split; [apply Rmax_l |]. split; [reflexivity |]. split; [reflexivity |].
  intros Ht Hop. unfold lerp.
  destruct ts; cbn [TreeState_eqb].
  - split; [split; nra |]. split; [intros _; nra |].
    split; [discriminate |]. apply Rmax_lub; nra.
  - split; [split; nra |]. split; [discriminate |].
    split; [intros _; nra |]. apply Rmax_lub; nra.
Qed.

Lemma star_fades_within_bounds_witness :
  0 <= fst (frame SCATTERED (Sample.rootAt 0) 0.1 1) <= 1.
Proof.
  apply (proj2 (proj2 (proj2 (star_fades_within_bounds SCATTERED
                                (Sample.rootAt 0) 0.1 1)))); lra.
Defined.

End StarProps.

(** ** The camera orbit *)

Module CameraOrbit.
Import Scene3D Scene3D.CameraController Aux.

(** X20: with [0 <= 3 * delta <= 1] a camera that is within 32 of the vertical
    axis stays within 32 of it, whatever the hand does. *)
Theorem camera_stays_within_orbit :
  forall (handData : HandData) (delta : R) (target : Vec2) (cam : Camera),
    0 <= delta * 3 <= 1 ->
    axisDist2 (cam_position cam) <= 32 ^ 2 ->
    axisDist2 (cam_position (snd (frame handData delta target cam)))
      <= 32 ^ 2.
Proof.
  intros hd delta target cam Ht Hin. unfold frame.
  cbn [snd cam_position]. unfold axisDist2 in *. cbn [vx vz].
  set (tgt := if detected hd then _ else target).
  set (a := v2y tgt).
  set (x0 := vx (cam_position cam)) in *.
  set (z0 := vz (cam_position cam)) in *.
  set (t := delta * 3) in *.
  pose proof (sin2_cos2 a) as Hsc. unfold Rsqr in Hsc.
  set (s := sin a) in *. set (c := cos a) in *.
  unfold lerp.
  assert (Hdot : 32 * (x0 * s + z0 * c) <= 32 ^ 2).
  { assert (0 <= (x0 - 32 * s) ^ 2 + (z0 - 32 * c) ^ 2).
    { apply Rplus_le_le_0_compat; apply pow2_ge_0. }
    nra. }
  replace ((x0 + (32 * s - x0) * t) ^ 2 + (z0 + (32 * c - z0) * t) ^ 2)
    with ((1 - t) ^ 2 * (x0 ^ 2 + z0 ^ 2)
          + 2 * t * (1 - t) * (32 * (x0 * s + z0 * c))
          + t ^ 2 * (32 ^ 2 * (s * s + c * c))) by ring.
  rewrite Hsc.
  assert (H1 : (1 - t) ^ 2 * (x0 ^ 2 + z0 ^ 2) <= (1 - t) ^ 2 * 32 ^ 2).
  { apply Rmult_le_compat_l; [apply pow2_ge_0 | exact Hin]. }
  assert (H2 : 2 * t * (1 - t) * (32 * (x0 * s + z0 * c))
               <= 2 * t * (1 - t) * 32 ^ 2).
  { apply Rmult_le_compat_l; [nra | exact Hdot]. }
  nra.
Qed.

Lemma camera_stays_within_orbit_witness :
  let hand := mkHandData true (mkVec3 0 0 0) (mkVec2 1 0.5) true in
  axisDist2
    (cam_position
       (snd (frame hand 0.1 initialTarget (camera (Sample.rootAt 0)))))
    <= 32 ^ 2.
Proof.
  intros hand.
  apply camera_stays_within_orbit; [lra |].
  unfold axisDist2. cbn. lra.
Defined.

(** X21: for a detected hand inside the image (position in the unit square)
    the yaw lies in [-PI/2, PI/2], so the point the camera is steered to
    lies on the circle of radius 32 about the axis, on the side
    [z >= 0], and its height is within [5 * PI] of 7. *)
Theorem camera_goal_in_front :
  forall (handData : HandData) (delta : R) (target : Vec2) (cam : Camera),
    detected handData = true ->
    0 <= v2x (position handData) <= 1 ->
    0 <= v2y (position handData) <= 1 ->
    let tgt := fst (frame handData delta target cam) in
    let goalPoint := mkVec3 (32 * sin (v2y tgt)) (v2x tgt * 20 + 7)
                            (32 * cos (v2y tgt)) in
    - (PI / 2) <= v2y tgt <= PI / 2 /\
    axisDist2 goalPoint = 32 ^ 2 /\
    0 <= vz goalPoint /\
    Rabs (vy goalPoint - 7) <= 5 * PI.
Proof.
  intros hd delta target cam Hd Hx Hy tgt goalPoint.
  subst goalPoint tgt. unfold frame. rewrite Hd. cbn [fst v2x v2y vx vy vz].
  pose proof PI_RGT_0 as Hpi.
  assert (Hyaw : - (PI / 2) <= (v2x (position hd) - 0.5) * PI <= PI / 2)
    by (split; nra).
  split; [exact Hyaw |]. split.
  - unfold axisDist2. cbn [vx vz].
    set (a := (v2x (position hd) - 0.5) * PI).
    pose proof (sin2_cos2 a) as Hsc. unfold Rsqr in Hsc.
    replace ((32 * sin a) ^ 2 + (32 * cos a) ^ 2)
      with (32 ^ 2 * (sin a * sin a + cos a * cos a)) by ring.
    rewrite Hsc. ring.
  - split.
    + assert (0 <= cos ((v2x (position hd) - 0.5) * PI))
        by (apply cos_ge_0; lra).
      lra.
    + apply Rabs_le. split; nra.
Qed.

Lemma camera_goal_in_front_witness :
  let hand := mkHandData true (mkVec3 0 0 0) (mkVec2 1 0.5) true in
  let tgt := fst (frame hand 0.1 initialTarget (camera (Sample.rootAt 0))) in
  0 <= 32 * cos (v2y tgt).
Proof.
  intros hand tgt.
  destruct (camera_goal_in_front hand 0.1 initialTarget
              (camera (Sample.rootAt 0)) eq_refl
              ltac:(cbn; lra) ltac:(cbn; lra))
    as (_ & _ & Hz & _).
  exact Hz.
Defined.

End CameraOrbit.

(** ** The generated ornament sets *)

Module OrnamentSetsProps.
Import Scene3D Scene3D.OrnamentSets Aux.

Lemma allOrnaments_push sets k o :
  List.length (allOrnaments (push sets k o))
    = S (List.length (allOrnaments sets)).
Proof.
  unfold allOrnaments, entries.
  destruct k; cbn [push map snd List.concat treeSet giftSet candySet bellSet
                   snowflakeSet starSet];
    repeat rewrite length_app; cbn [List.length]; lia.
Qed.

Lemma make_not_star g : fst (fst (make g)) <> star.
Proof.
  unfold make, JS.Math_random.
  destruct (JS.lt (g 6%nat) 0.6); [discriminate |].
  destruct (JS.lt (g 6%nat) 0.75); [discriminate |].
  destruct (JS.lt (g 6%nat) 0.85); [discriminate |].
  destruct (JS.lt (g 6%nat) 0.92); discriminate.
Qed.

Lemma push_star sets k o : k <> star -> starSet (push sets k o) = starSet sets.
Proof. destruct k; intros H; try reflexivity. contradiction. Qed.

Lemma loop_total n g sets :
  List.length (allOrnaments (fst (loop n g sets)))
    = (n + List.length (allOrnaments sets))%nat /\
  starSet (fst (loop n g sets)) = starSet sets.
Proof.
  revert g sets. induction n as [| n IH]; intros g sets; [split; reflexivity |].
  cbn [loop].
  pose proof (make_not_star g) as Hk.
  destruct (make g) as [[k o] g1]. cbn [fst] in Hk.
  destruct (IH g1 (push sets k o)) as [IL IS].
  rewrite IL, IS, allOrnaments_push, push_star by exact Hk.
  split; [lia | reflexivity].
Qed.

(** X22: the six sets hold [ORNAMENT_COUNT] = 1200 ornaments between them, and
    the set of the key [star] stays empty: no instance is ever drawn with
    the star texture by a layer. *)
Theorem ornament_sets_total :
  forall (g : JS.Rng),
    let sets := fst (ornamentSets g) in
    (List.length (treeSet sets) + List.length (giftSet sets)
     + List.length (candySet sets) + List.length (bellSet sets)
     + List.length (snowflakeSet sets))%nat = 1200%nat /\
    starSet sets = [].
Proof.
  intros g sets. subst sets. unfold ornamentSets.
  destruct (loop_total ORNAMENT_COUNT g empty) as [HL HS].
  split; [| exact HS].
  unfold allOrnaments, entries in HL.
  cbn [map snd List.concat] in HL. rewrite HS in HL.
  repeat rewrite length_app in HL. cbn [List.length] in HL.
  change (List.length (treeSet empty)) with 0%nat in HL.
  change (List.length (giftSet empty)) with 0%nat in HL.
  change (List.length (candySet empty)) with 0%nat in HL.
  change (List.length (bellSet empty)) with 0%nat in HL.
  change (List.length (snowflakeSet empty)) with 0%nat in HL.
  change (List.length (starSet empty)) with 0%nat in HL.
  unfold ORNAMENT_COUNT in *. lia.
Qed.

Lemma sphere_point r phi theta :
  (r * sin phi * cos theta) ^ 2 + (r * sin phi * sin theta) ^ 2
  + (r * cos phi) ^ 2 = r ^ 2.
Proof.
  pose proof (sin2_cos2 phi) as H1. pose proof (sin2_cos2 theta) as H2.
  unfold Rsqr in *.
  replace ((r * sin phi * cos theta) ^ 2 + (r * sin phi * sin theta) ^ 2
           + (r * cos phi) ^ 2)
    with (r ^ 2 * (sin phi * sin phi
                   * (sin theta * sin theta + cos theta * cos theta)
                   + cos phi * cos phi)) by ring.
  rewrite H2, Rmult_1_r, H1. ring.
Qed.

Lemma disc_point r t : (r * cos t) ^ 2 + (r * sin t) ^ 2 = r ^ 2.
Proof.
  pose proof (sin2_cos2 t) as H. unfold Rsqr in H.
  replace ((r * cos t) ^ 2 + (r * sin t) ^ 2)
    with (r ^ 2 * (sin t * sin t + cos t * cos t)) by ring.
  rewrite H. ring.
Qed.

Lemma make_well_formed g :
  JS.unit_draws g ->
  wellFormed (fst (fst (make g))) (snd (fst (make g))) /\
  JS.unit_draws (snd (make g)).
Proof.
  intros Hg.
  pose proof (Hg 0%nat) as D0. pose proof (Hg 1%nat) as D1.
  pose proof (Hg 3%nat) as D3. pose proof (Hg 7%nat) as D7.
  unfold make, JS.Math_random.
  set (kind := if JS.lt (g 6%nat) 0.6 then _ else _).
  assert (Hgeo :
    forall k sz col, 
      let o := mkOrnamentData
                 (mkVec3
                    ((1 - g 0%nat * TREE_HEIGHT / TREE_HEIGHT) * TREE_RADIUS
                     * (0.8 + g 1%nat * 0.4) * cos (g 2%nat * PI * 2))
                    (g 0%nat * TREE_HEIGHT - TREE_HEIGHT / 2)
                    ((1 - g 0%nat * TREE_HEIGHT / TREE_HEIGHT) * TREE_RADIUS
                     * (0.8 + g 1%nat * 0.4) * sin (g 2%nat * PI * 2)))
                 (mkVec3
                    ((1 - g 0%nat * TREE_HEIGHT / TREE_HEIGHT) * TREE_RADIUS
                     * (0.8 + g 1%nat * 0.4) * cos (g 2%nat * PI * 2))
                    (g 0%nat * TREE_HEIGHT - TREE_HEIGHT / 2)
                    ((1 - g 0%nat * TREE_HEIGHT / TREE_HEIGHT) * TREE_RADIUS
                     * (0.8 + g 1%nat * 0.4) * sin (g 2%nat * PI * 2)))
                 (mkVec3
                    ((15 + g 3%nat * 25) * sin (g 5%nat * PI)
                     * cos (g 4%nat * PI * 2))
                    ((15 + g 3%nat * 25) * sin (g 5%nat * PI)
                     * sin (g 4%nat * PI * 2))
                    ((15 + g 3%nat * 25) * cos (g 5%nat * PI)))
                 sphere col sz in
      match k with
      | tree => 0.6 <= sz < 1.08 /\ col = COLORS.MATTE_GREEN
      | gift => 0.5 <= sz < 0.9 /\ col = COLORS.CHRISTMAS_RED
      | candy => 0.5 <= sz < 0.9 /\ col = COLORS.MATTE_GREEN
      | bell => 0.5 <= sz < 0.9 /\ col = COLORS.METALLIC_GOLD
      | snowflake => 0.5 <= sz < 0.9 /\ col = COLORS.MATTE_GREEN
      | star => False
      end -> wellFormed k o).
  { intros k sz col o Hk. subst o. unfold wellFormed.
    cbn [initialPos treePos scatterPos size color vx vy vz].
    unfold TREE_HEIGHT, TREE_RADIUS.
    split; [reflexivity |]. split; [lra |]. split.
    - unfold axisDist2. cbn [vx vz]. rewrite disc_point.
      replace ((7 - (g 0%nat * 14 - 14 / 2)) / 14) with (1 - g 0%nat) by field.
      replace (1 - g 0%nat * 14 / 14) with (1 - g 0%nat) by field.
      apply pow_incr. split; nra.
    - split; [| exact Hk].
      unfold norm2. cbn [vx vy vz]. rewrite sphere_point.
      set (R0 := 15 + g 3%nat * 25).
      assert (15 <= R0 < 40) by (unfold R0; lra).
      split; nra. }
  split.
  2:{ subst kind.
      destruct (JS.lt (g 6%nat) 0.6); [intros n; cbn; apply Hg |].
      destruct (JS.lt (g 6%nat) 0.75); [intros n; cbn; apply Hg |].
      destruct (JS.lt (g 6%nat) 0.85); [intros n; cbn; apply Hg |].
      destruct (JS.lt (g 6%nat) 0.92); intros n; cbn; apply Hg. }
  subst kind.
  destruct (JS.lt (g 6%nat) 0.6); [apply Hgeo; split; [lra | reflexivity] |].
  destruct (JS.lt (g 6%nat) 0.75); [apply Hgeo; split; [lra | reflexivity] |].
  destruct (JS.lt (g 6%nat) 0.85); [apply Hgeo; split; [lra | reflexivity] |].
  destruct (JS.lt (g 6%nat) 0.92); apply Hgeo; split; (lra || reflexivity).
Qed.

Lemma push_well_formed sets k o :
  setsWellFormed sets -> wellFormed k o -> setsWellFormed (push sets k o).
Proof.
  unfold setsWellFormed, entries.
  rewrite !Forall_cons_iff. cbn [fst snd].
  intros (A & B & C & D & E & F & _) Ho.
  assert (Hone : Forall (wellFormed k) [o]) by (constructor; [exact Ho | constructor]).
  destruct k; cbn [push treeSet giftSet candySet bellSet snowflakeSet starSet];
    repeat (split; [first [assumption | apply Forall_app; split; assumption] |]);
    constructor.
Qed.

Lemma loop_well_formed n g sets :
  JS.unit_draws g -> setsWellFormed sets ->
  setsWellFormed (fst (loop n g sets)).
Proof.
  revert g sets. induction n as [| n IH]; intros g sets Hg Hs; [exact Hs |].
  cbn [loop].
  destruct (make_well_formed g Hg) as [Ho Hg1].
  destruct (make g) as [[k o] g1]. cbn [fst snd] in *.
  apply IH; [exact Hg1 |]. apply push_well_formed; assumption.
Qed.

(** X23: every generated ornament starts at its tree position, which lies
    inside the cone of the tree (height in [-7, 7), distance from the axis
    at most 7.2 times the remaining height fraction); its scatter position
    lies between 15 and 40 from the origin, farther out than its tree
    position; trees are green with a size in [0.6, 1.08), gifts red,
    bells gold, candies and snowflakes green, all with a size in
    [0.5, 0.9). *)
Theorem generated_ornaments_well_formed :
  forall (g : JS.Rng) (k : Kind) (l : list OrnamentData) (o : OrnamentData),
    JS.unit_draws g ->
    In (k, l) (entries (fst (ornamentSets g))) ->
    In o l ->
    wellFormed k o /\ norm2 (treePos o) < norm2 (scatterPos o).
Proof.
  intros g k l o Hg Hk Ho.
  assert (Hs : setsWellFormed (fst (ornamentSets g))).
  { unfold ornamentSets. apply loop_well_formed; [exact Hg |].
    unfold setsWellFormed, entries, empty. cbn. repeat constructor. }
  unfold setsWellFormed in Hs. rewrite Forall_forall in Hs.
  specialize (Hs (k, l) Hk). cbn [fst snd] in Hs.
  rewrite Forall_forall in Hs. specialize (Hs o Ho).
  split; [exact Hs |].
  destruct Hs as (_ & Hy & Hax & Hsc & _).
  unfold norm2, axisDist2 in *.
  assert (Hq : 0 <= (7 - vy (treePos o)) / 14 <= 1) by lra.
  assert ((7.2 * ((7 - vy (treePos o)) / 14)) ^ 2 <= 7.2 ^ 2)
    by (apply pow_incr; lra).
  assert (vy (treePos o) ^ 2 <= 7 ^ 2) by nra.
  nra.
Qed.

Lemma generated_ornaments_well_formed_witness :
  let g : JS.Rng := fun _ => 0.5 in
  Forall (wellFormed tree) (treeSet (fst (ornamentSets g))).
Proof.
  intros g. apply Forall_forall. intros o Ho.
  apply (generated_ornaments_well_formed g tree
           (treeSet (fst (ornamentSets g))) o).
  - intros n. unfold g. lra.
  - left. reflexivity.
  - exact Ho.
Defined.

End OrnamentSetsProps.

(** ** The particle text *)

Module TextProps.
Import Scene3D Scene3D.MerryChristmasText Aux.

Lemma steps_sound limit v :
  In v (steps limit) -> (v < limit)%nat /\ (v mod 4 = 0)%nat.
Proof.
  unfold steps, step. intros H. apply in_map_iff in H.
  destruct H as (k & <- & Hk). apply in_seq in Hk.
  pose proof (Nat.Div0.mul_div_le (limit + 4 - 1) 4).
  split; [lia | apply Nat.Div0.mod_mul].
Qed.

Lemma steps_complete limit v :
  (v < limit)%nat -> (v mod 4 = 0)%nat -> In v (steps limit).
Proof.
  intros Hv Hm. unfold steps, step. apply in_map_iff.
  exists (v / 4)%nat.
  pose proof (Nat.div_mod_eq v 4) as E.
  pose proof (Nat.div_mod_eq (limit + 4 - 1) 4) as E'.
  pose proof (Nat.mod_upper_bound (limit + 4 - 1) 4 ltac:(discriminate)).
  split; [lia |]. apply in_seq. lia.
Qed.

Lemma INR_width : INR canvasWidth / 2 = 400.
Proof. unfold canvasWidth. rewrite INR_IZR_INZ. cbn. lra. Qed.

Lemma INR_height : INR canvasHeight / 2 = 100.
Proof. unfold canvasHeight. rewrite INR_IZR_INZ. cbn. lra. Qed.

(** What one pixel contributes. *)
Lemma sample_spec img py px g :
  (fst (sample img py px g) = [] /\ ~ (128 < img ((py * 800 + px) * 4))%nat /\
   snd (sample img py px g) = g) \/
  (exists p, fst (sample img py px g) = [p] /\
             (128 < img ((py * 800 + px) * 4))%nat /\
             glyphAt px py p /\ id p = g 0%nat /\
             snd (sample img py px g) = shift 1 g).
Proof.
  unfold sample, canvasWidth, canvasHeight.
  destruct (128 <? img ((py * 800 + px) * 4))%nat eqn:B.
  - right. apply Nat.ltb_lt in B. eexists. cbn -[INR].
    split; [reflexivity |]. split; [exact B |].
    split; [| split; reflexivity].
    unfold glyphAt, scale. cbn [x y z].
    pose proof INR_width as W. pose proof INR_height as H.
    unfold canvasWidth, canvasHeight in W, H.
    rewrite W, H. repeat split.
  - left. apply Nat.ltb_ge in B. cbn. repeat split. lia.
Qed.

Lemma row_spec img py xs g :
  exists n,
    (forall k, snd (row img py xs g) k = g (n + k)%nat) /\
    (List.length (fst (row img py xs g)) <= List.length xs)%nat /\
    (forall p, In p (fst (row img py xs g)) ->
       exists px k, In px xs /\ (128 < img ((py * 800 + px) * 4))%nat /\
                    glyphAt px py p /\ id p = g k) /\
    (forall px, In px xs -> (128 < img ((py * 800 + px) * 4))%nat ->
       exists p, In p (fst (row img py xs g)) /\ glyphAt px py p).
Proof.
  revert g. induction xs as [| px rest IH]; intros g.
  - exists 0%nat. cbn. repeat split; try lia; intros; contradiction.
  - cbn [row].
    destruct (sample_spec img py px g) as [(E & Hd & Eg) | (p0 & E & Hb & Hp & Hid & Eg)];
      destruct (sample img py px g) as [l g1]; cbn [fst snd] in *; subst l g1.
    + destruct (IH g) as (n & Hn & HL & HS & HC).
      destruct (row img py rest g) as [ps g2]. cbn [fst snd app] in *.
      exists n. split; [exact Hn |]. split; [cbn; lia |]. split.
      * intros p Hin. destruct (HS p Hin) as (px' & k & Hi & Hb' & Hg' & Hk).
        exists px', k. split; [now right |]. split; [exact Hb' |].
        split; [exact Hg' | exact Hk].
      * intros px' [<- | Hin] Hb'; [contradiction | apply HC; assumption].
    + destruct (IH (shift 1 g)) as (n & Hn & HL & HS & HC).
      destruct (row img py rest (shift 1 g)) as [ps g2].
      cbn [fst snd app] in *.
      exists (1 + n)%nat. split.
      { intros k. rewrite Hn. unfold shift. f_equal. }
      split; [cbn; lia |]. split.
      * intros p [<- | Hin].
        -- exists px, 0%nat. split; [now left |]. split; [exact Hb |].
           split; [exact Hp | exact Hid].
        -- destruct (HS p Hin) as (px' & k & Hi & Hb' & Hg' & Hk).
           exists px', (1 + k)%nat. split; [now right |].
           split; [exact Hb' |]. split; [exact Hg' | exact Hk].
      * intros px' [<- | Hin] Hb'.
        -- exists p0. split; [now left | exact Hp].
        -- destruct (HC px' Hin Hb') as (p & Hp' & Hg').
           exists p. split; [now right | exact Hg'].
Qed.

Lemma rows_spec img ys xs g :
  exists n,
    (forall k, snd (rows img ys xs g) k = g (n + k)%nat) /\
    (List.length (fst (rows img ys xs g))
     <= List.length ys * List.length xs)%nat /\
    (forall p, In p (fst (rows img ys xs g)) ->
       exists px py k, In px xs /\ In py ys /\
                       (128 < img ((py * 800 + px) * 4))%nat /\
                       glyphAt px py p /\ id p = g k) /\
    (forall px py, In px xs -> In py ys ->
       (128 < img ((py * 800 + px) * 4))%nat ->
       exists p, In p (fst (rows img ys xs g)) /\ glyphAt px py p).
Proof.
  revert g. induction ys as [| py rest IH]; intros g.
  - exists 0%nat. cbn. repeat split; try lia; intros; contradiction.
  - cbn [rows].
    destruct (row_spec img py xs g) as (n1 & Hn1 & HL1 & HS1 & HC1).
    destruct (row img py xs g) as [l1 g1]. cbn [fst snd] in *.
    destruct (IH g1) as (n2 & Hn2 & HL2 & HS2 & HC2).
    destruct (rows img rest xs g1) as [l2 g2]. cbn [fst snd] in *.
    exists (n1 + n2)%nat. split.
    { intros k. rewrite Hn2, Hn1. f_equal. lia. }
    split; [rewrite length_app; cbn [List.length]; lia |]. split.
    + intros p Hin. apply in_app_or in Hin. destruct Hin as [Hin | Hin].
      * destruct (HS1 p Hin) as (px & k & Hi & Hb & Hg' & Hk).
        exists px, py, k. split; [exact Hi |]. split; [now left |].
        split; [exact Hb |]. split; [exact Hg' | exact Hk].
      * destruct (HS2 p Hin) as (px & py' & k & Hi & Hj & Hb & Hg' & Hk).
        exists px, py', (n1 + k)%nat.
        split; [exact Hi |]. split; [now right |].
        split; [exact Hb |]. split; [exact Hg' |].
        rewrite Hk. apply Hn1.
    + intros px py' Hi [<- | Hj] Hb.
      * destruct (HC1 px Hi Hb) as (p & Hp & Hg').
        exists p. split; [apply in_or_app; now left | exact Hg'].
      * destruct (HC2 px py' Hi Hj Hb) as (p & Hp & Hg').
        exists p. split; [apply in_or_app; now right | exact Hg'].
Qed.

Lemma row_pixels img py xs g :
  Forall2 (fun pix p => glyphAt (fst pix) (snd pix) p)
    (filter (isBright img) (map (fun px => (px, py)) xs))
    (fst (row img py xs g)).
Proof.
  revert g. induction xs as [| px rest IH]; intros g; [constructor |].
  cbn [row map filter]. unfold isBright at 1. cbn [fst snd].
  destruct (sample_spec img py px g)
    as [(E & Hd & Eg) | (p0 & E & Hb & Hp & Hid & Eg)];
    destruct (sample img py px g) as [l g1]; cbn [fst snd] in *; subst l g1.
  - replace (128 <? img ((py * 800 + px) * 4))%nat with false
      by (symmetry; apply Nat.ltb_ge; lia).
    specialize (IH g). destruct (row img py rest g) as [ps g2]. exact IH.
  - replace (128 <? img ((py * 800 + px) * 4))%nat with true
      by (symmetry; apply Nat.ltb_lt; exact Hb).
    specialize (IH (shift 1 g)).
    destruct (row img py rest (shift 1 g)) as [ps g2].
    cbn [fst app] in *. constructor; [exact Hp | exact IH].
Qed.

Lemma rows_pixels img ys xs g :
  Forall2 (fun pix p => glyphAt (fst pix) (snd pix) p)
    (filter (isBright img)
       (flat_map (fun py => map (fun px => (px, py)) xs) ys))
    (fst (rows img ys xs g)).
Proof.
  revert g. induction ys as [| py rest IH]; intros g; [constructor |].
  cbn [rows flat_map]. rewrite filter_app.
  pose proof (row_pixels img py xs g) as H1.
  destruct (row img py xs g) as [l1 g1]. cbn [fst] in H1.
  specialize (IH g1). destruct (rows img rest xs g1) as [l2 g2].
  cbn [fst] in *. apply Forall2_app; assumption.
Qed.

Lemma steps_NoDup limit : NoDup (steps limit).
Proof.
  unfold steps, step. apply NoDup_map_NoDup_ForallPairs.
  - intros a b _ _ E. lia.
  - apply seq_NoDup.
Qed.

Lemma grid_NoDup (xs ys : list nat) :
  NoDup xs -> NoDup ys ->
  NoDup (flat_map (fun py => map (fun px => (px, py)) xs) ys).
Proof.
  intros Hx Hy. induction Hy as [| py rest Hn Hy IH]; [constructor |].
  cbn [flat_map]. apply NoDup_app.
  - apply NoDup_map_NoDup_ForallPairs; [| exact Hx].
    intros a b _ _ E. now injection E.
  - exact IH.
  - intros [px' py'] H1 H2.
    apply in_map_iff in H1. destruct H1 as (px & E & _).
    injection E as _ <-.
    apply in_flat_map in H2. destruct H2 as (py2 & Hin & H2).
    apply in_map_iff in H2. destruct H2 as (px2 & E2 & _).
    injection E2 as _ ->. contradiction.
Qed.

Lemma brightPixels_spec img px py :
  In (px, py) (brightPixels img) <-> brightAt img px py.
Proof.
  unfold brightPixels, gridPixels, brightAt, isBright.
  rewrite filter_In, in_flat_map. cbn [fst snd]. rewrite Nat.ltb_lt.
  split.
  - intros [(py' & Hy & Hin) Hb].
    apply in_map_iff in Hin. destruct Hin as (px' & E & Hx).
    injection E as -> ->.
    apply steps_sound in Hx. apply steps_sound in Hy.
    unfold canvasWidth, canvasHeight in *. tauto.
  - intros (Hx & Hy & Hmx & Hmy & Hb). split; [| exact Hb].
    exists py. split; [apply steps_complete; assumption |].
    apply in_map_iff. exists px.
    split; [reflexivity | apply steps_complete; assumption].
Qed.

Lemma brightPixels_NoDup img : NoDup (brightPixels img).
Proof.
  unfold brightPixels, gridPixels. apply NoDup_filter.
  apply grid_NoDup; apply steps_NoDup.
Qed.

Lemma particles_pixels img g :
  Forall2 (fun pix p => glyphAt (fst pix) (snd pix) p)
    (brightPixels img)
    (fst (rows img (steps canvasHeight) (steps canvasWidth) g)).
Proof. unfold brightPixels, gridPixels. apply rows_pixels. Qed.

(** X24: the sampled particles are the bright pixels of the 4-pixel grid of
    the 800 x 200 bitmap, one particle per such pixel and in the order of
    the scan: the list of particles matches, entry by entry, the list of
    the bright grid pixels, in which no pixel occurs twice, the particle
    of the pixel [(px, py)] lying at
    [((px - 400) * 0.035, (100 - py) * 0.035, 0)].  So there are at most
    10000 of them (50 rows of 200), inside [-14, 14) x (-3.5, 3.5], with
    an id in [0, 1); without a 2D context there are none. *)
Theorem glyphs_are_bright_grid_pixels :
  forall (ctx : option ImageData) (g : JS.Rng),
    JS.unit_draws g ->
    let ps := fst (particles ctx g) in
    (ctx = None -> ps = []) /\
    (List.length ps <= 50 * 200)%nat /\
    Forall (fun p => -14 <= x p < 14 /\ -3.5 < y p <= 3.5 /\ z p = 0 /\
                     0 <= id p < 1) ps /\
    (forall img, ctx = Some img ->
       (forall p, In p ps -> exists px py, brightAt img px py /\ glyphAt px py p)
       /\
       (forall px py, brightAt img px py ->
                      exists p, In p ps /\ glyphAt px py p)
       /\
       NoDup (brightPixels img) /\
       (forall px py, In (px, py) (brightPixels img) <-> brightAt img px py) /\
       List.length ps = List.length (brightPixels img) /\
       Forall2 (fun pix p => glyphAt (fst pix) (snd pix) p)
         (brightPixels img) ps).
Proof.
  intros ctx g Hg ps. subst ps. destruct ctx as [img |]; cbn [particles].
  - destruct (rows_spec img (steps canvasHeight) (steps canvasWidth) g)
      as (n & _ & HL & HS & HC).
    split; [discriminate |]. split.
    { replace (List.length (steps canvasWidth)) with 200%nat in HL
        by (unfold steps; rewrite length_map, length_seq; reflexivity).
      replace (List.length (steps canvasHeight)) with 50%nat in HL
        by (unfold steps; rewrite length_map, length_seq; reflexivity).
      exact HL. }
    assert (Hsound : forall p,
              In p (fst (rows img (steps canvasHeight) (steps canvasWidth) g)) ->
              exists px py k, brightAt img px py /\ glyphAt px py p /\
                              id p = g k).
    { intros p Hin.
      destruct (HS p Hin) as (px & py & k & Hi & Hj & Hb & Hp & Hk).
      apply steps_sound in Hi. apply steps_sound in Hj.
      exists px, py, k. unfold brightAt, canvasWidth, canvasHeight in *.
      split; [tauto |]. split; [exact Hp | exact Hk]. }
    split.
    { apply Forall_forall. intros p Hin.
      destruct (Hsound p Hin)
        as (px & py & k & (Hx & Hy & _) & (Ex & Ey & Ez) & Ek).
      rewrite Ex, Ey, Ez, Ek.
      apply lt_INR in Hx. apply lt_INR in Hy.
      pose proof (pos_INR px). pose proof (pos_INR py).
      replace (INR 800) with 800 in Hx by (rewrite INR_IZR_INZ; reflexivity).
      replace (INR 200) with 200 in Hy by (rewrite INR_IZR_INZ; reflexivity).
      pose proof (Hg k).
      repeat split; lra. }
    intros img' [= <-].
    pose proof (particles_pixels img g) as HP.
    split.
    { intros p Hin. destruct (Hsound p Hin) as (px & py & k & Hb & Hp & _).
      exists px, py. split; assumption. }
    split.
    { intros px py (Hx & Hy & Hmx & Hmy & Hb).
      apply HC; [apply steps_complete | apply steps_complete |]; assumption. }
    split; [apply brightPixels_NoDup |].
    split; [intros px py; apply brightPixels_spec |].
    split; [symmetry; exact (Forall2_length HP) | exact HP].
  - split; [reflexivity |]. split; [apply Nat.le_0_l |].
    split; [constructor | discriminate].
Qed.

Lemma glyphs_are_bright_grid_pixels_witness :
  (List.length (fst (particles (Some (fun _ => 255%nat)) (fun _ => 0.5%R)))
   <= 50 * 200)%nat.
Proof.
  assert (Hg : JS.unit_draws (fun _ => 0.5)) by (intros n; lra).
  exact (proj1 (proj2 (glyphs_are_bright_grid_pixels
                         (Some (fun _ => 255%nat)) (fun _ => 0.5) Hg))).
Defined.

Lemma sweepX_range time : 0 <= time -> -8 <= sweepX time < 8.
Proof.
  intros Ht. unfold sweepX, sweepRange, sweepSpeed.
  destruct (JSProps.rem_is_mod (time * 4.0) 16 ltac:(lra) ltac:(lra))
    as (_ & _ & H).
  lra.
Qed.

Lemma intensity_range b time p :
  0 <= sweepIntensity b time p <= 8 /\
  (b = false -> sweepIntensity b time p = 0) /\
  (2 <= Rabs (x p - sweepX time) -> sweepIntensity b time p = 0).
Proof.
  unfold sweepIntensity. destruct b.
  - set (d := Rabs (x p - sweepX time)).
    assert (Hd : 0 <= d) by apply Rabs_pos.
    unfold JS.Math_max, JS.Math_pow, Rmax.
    destruct (Rle_dec 0 (1.0 - d / 2.0)) as [P | N].
    + set (u := 1.0 - d / 2.0) in *.
      assert (Hu : 0 <= u <= 1) by (split; [exact P | unfold u; lra]).
      assert (0 <= u ^ 4 <= 1).
      { split; [apply pow_le; lra |].
        pose proof (pow_incr u 1 4 Hu) as Hp. rewrite pow1 in Hp. exact Hp. }
      split; [lra |]. split; [discriminate |].
      intros H2. assert (Hz : u = 0) by (apply Rle_antisym; [unfold u; lra | exact P]).
      rewrite Hz. ring.
    + split; [lra |]. split; [discriminate |]. intros _. ring.
  - repeat split; lra.
Qed.

(** X25: every glyph is drawn within 0.05 of its sampled place with a scale
    that pulses between 0.045 and 0.075.  The sweep line stays in
    [-8, 8) for a clock that is not negative; it enlarges a glyph, by a
    factor of at most 1.8, only while the tree is scattered and only
    within a distance of 2 of the line. *)
Theorem text_highlight_only_when_scattered :
  forall (treeState : TreeState) (state : RootState) (data : list Particle)
         (i : nat) (p : Particle),
    nth_error data i = Some p ->
    0 <= elapsedTime state ->
    let time := elapsedTime state in
    let base := 0.06 + sin (time * 2 + id p * 20) * 0.015 in
    List.length (snd (frame treeState state data)) = List.length data /\
    -8 <= sweepX time < 8 /\
    0.045 <= base <= 0.075 /\
    exists mat s,
      nth_error (snd (frame treeState state data)) i = Some mat /\
      m_scale mat = mkVec3 s s s /\
      base <= s <= 1.8 * base /\
      (treeState = CLOSED -> s = base) /\
      (2 <= Rabs (x p - sweepX time) -> s = base) /\
      Rabs (vx (m_position mat) - x p) <= 0.05 /\
      Rabs (vy (m_position mat) - y p) <= 0.05 /\
      vz (m_position mat) = z p.
Proof.
  intros ts state data i p Hi Ht time base.
  unfold frame. cbn [snd].
  split; [apply length_map |].
  split; [apply sweepX_range; exact Ht |].
  pose proof (SIN_bound (time * 2 + id p * 20)) as Hb.
  assert (Hbase : 0.045 <= base <= 0.075) by (unfold base; lra).
  split; [exact Hbase |].
  eexists. eexists. split; [apply map_nth_error; exact Hi |].
  unfold body. cbn [m_scale m_position vx vy vz]. fold time. fold base.
  split; [reflexivity |].
  destruct (intensity_range (TreeState_eqb ts SCATTERED) time p)
    as (Hr & Hoff & Hfar).
  set (w := sweepIntensity (TreeState_eqb ts SCATTERED) time p) in *.
  pose proof (SIN_bound (time * 0.5 + id p * 10)).
  pose proof (COS_bound (time * 0.7 + id p * 10)).
  split; [split; nra |].
  split; [intros ->; rewrite Hoff by reflexivity; lra |].
  split; [intros Hd; rewrite (Hfar Hd); lra |].
  split; [apply Rabs_le; lra |].
  split; [apply Rabs_le; lra | reflexivity].
Qed.

Lemma text_highlight_only_when_scattered_witness :
  let p := mkParticle 1 0 0 0.5 in
  (List.length (snd (frame SCATTERED (Sample.rootAt 1) [p])) = 1)%nat /\
  -8 <= sweepX 1 < 8.
Proof.
  intros p.
  destruct (text_highlight_only_when_scattered SCATTERED (Sample.rootAt 1)
              [p] 0 p eq_refl ltac:(cbn; lra))
    as (HL & HS & _).
  split; [exact HL | exact HS].
Defined.

End TextProps.

(** ** The callbacks of a frame together *)

Module SceneProps.
Import Scene3D Aux.

Lemma populationFrames_fields ts time delta sc :
  let state := mkRootState time (sceneCamera sc) in
  populationFrames ts time delta sc =
    mkScene (targetCameraRotation sc) (sceneCamera sc)
      (snd (Snowfall.frame state delta (snowData sc) (random sc)))
      (fst (fst (Snowfall.frame state delta (snowData sc) (random sc))))
      (snd (fst (Snowfall.frame state delta (snowData sc) (random sc))))
      (meteorData sc) (MeteorShower.frame ts state (meteorData sc))
      (rippleData sc)
      (snd (BaseRipple.frame ts state (rippleData sc) (rippleDummy sc)))
      (fst (BaseRipple.frame ts state (rippleData sc) (rippleDummy sc)))
      (map (layerFrame ts state delta) (ornamentSets sc))
      (fst (TreeTopStar.frame ts state delta (starOpacity sc)))
      (snd (TreeTopStar.frame ts state delta (starOpacity sc))).
Proof.
  intros state. unfold populationFrames. fold state.
  destruct (Snowfall.frame state delta (snowData sc) (random sc))
    as [[snow snowM] g].
  destruct (BaseRipple.frame ts state (rippleData sc) (rippleDummy sc))
    as [rippleM rippleD].
  destruct (TreeTopStar.frame ts state delta (starOpacity sc)) as [op grp].
  reflexivity.
Qed.

Lemma cameraFrame_fields hd delta sc :
  cameraFrame hd delta sc =
    mkScene
      (fst (CameraController.frame hd delta (targetCameraRotation sc)
              (sceneCamera sc)))
      (snd (CameraController.frame hd delta (targetCameraRotation sc)
              (sceneCamera sc)))
      (random sc) (snowData sc) (snowMesh sc) (meteorData sc) (meteorMesh sc)
      (rippleData sc) (rippleDummy sc) (rippleMesh sc) (ornamentSets sc)
      (starOpacity sc) (starGroup sc).
Proof.
  unfold cameraFrame.
  destruct (CameraController.frame hd delta (targetCameraRotation sc)
              (sceneCamera sc)).
  reflexivity.
Qed.

Lemma snow_loop_shape state delta data g :
  List.length (fst (fst (Snowfall.loop state delta data g)))
    = List.length data /\
  List.length (snd (fst (Snowfall.loop state delta data g)))
    = List.length data.
Proof.
  revert g. induction data as [| s rest IH]; intros g; [split; reflexivity |].
  cbn [Snowfall.loop].
  destruct (Snowfall.fall delta s g) as [s1 g1].
  specialize (IH g1).
  destruct (Snowfall.loop state delta rest g1) as [[ss ms] g2].
  cbn in *. destruct IH as [-> ->]. split; reflexivity.
Qed.

Lemma snow_loop_camera time cam cam' delta data g :
  map geometry
    (snd (fst (Snowfall.loop (mkRootState time cam) delta data g)))
  = map geometry
      (snd (fst (Snowfall.loop (mkRootState time cam') delta data g))).
Proof.
  revert g. induction data as [| s rest IH]; intros g; [reflexivity |].
  cbn [Snowfall.loop].
  destruct (Snowfall.fall delta s g) as [s1 g1].
  specialize (IH g1).
  destruct (Snowfall.loop (mkRootState time cam) delta rest g1)
    as [[ss ms] g2].
  destruct (Snowfall.loop (mkRootState time cam') delta rest g1)
    as [[ss' ms'] g2'].
  cbn [fst snd map] in *. rewrite IH. reflexivity.
Qed.

Lemma emoji_loop_camera ts time cam cam' delta i data cur d d' :
  obj_position d = obj_position d' -> obj_scale d = obj_scale d' ->
  let r := EmojiLayer.loop ts (mkRootState time cam) delta i data cur d in
  let r' := EmojiLayer.loop ts (mkRootState time cam') delta i data cur d' in
  fst (fst r) = fst (fst r') /\
  map geometry (snd (fst r)) = map geometry (snd (fst r')) /\
  obj_position (snd r) = obj_position (snd r') /\
  obj_scale (snd r) = obj_scale (snd r').
Proof.
  revert i cur d d'.
  induction data as [| o rest IH]; intros i cur d d' Hp Hs.
  - cbn. repeat split; assumption.
  - destruct cur as [| c cur']; [cbn; repeat split; assumption |].
    cbn [EmojiLayer.loop]. unfold EmojiLayer.body.
    cbn [elapsedTime camera]. rewrite Hs.
    match goal with
    | |- context [EmojiLayer.loop ts (mkRootState time cam) delta (S i) rest
                    cur' ?a] =>
        match goal with
        | |- context [EmojiLayer.loop ts (mkRootState time cam') delta (S i)
                        rest cur' ?b] =>
            specialize (IH (S i) cur' a b eq_refl eq_refl);
            destruct (EmojiLayer.loop ts (mkRootState time cam) delta (S i)
                        rest cur' a) as [[cs ms] d2];
            destruct (EmojiLayer.loop ts (mkRootState time cam') delta (S i)
                        rest cur' b) as [[cs' ms'] d2']
        end
    end.
    cbn [fst snd map] in *. destruct IH as (-> & -> & -> & ->).
    repeat split.
Qed.

Lemma layer_camera ts time cam cam' delta l :
  layerCore (layerFrame ts (mkRootState time cam) delta l)
  = layerCore (layerFrame ts (mkRootState time cam') delta l).
Proof.
  destruct l as [[data st] ms0]. unfold layerFrame, EmojiLayer.frame.
  pose proof (emoji_loop_camera ts time cam cam' delta 0 data
                (EmojiLayer.currentPositions st) (EmojiLayer.dummy st)
                (EmojiLayer.dummy st) eq_refl eq_refl) as H.
  cbn zeta in H.
  destruct (EmojiLayer.loop ts (mkRootState time cam) delta 0 data
              (EmojiLayer.currentPositions st) (EmojiLayer.dummy st))
    as [[cs ms] d2].
  destruct (EmojiLayer.loop ts (mkRootState time cam') delta 0 data
              (EmojiLayer.currentPositions st) (EmojiLayer.dummy st))
    as [[cs' ms'] d2'].
  cbn [fst snd layerCore EmojiLayer.currentPositions EmojiLayer.dummy] in *.
  destruct H as (-> & -> & -> & ->). reflexivity.
Qed.

(** X26: whether the camera callback runs before or after the callbacks of
    the populations makes a difference only to the orientation copied
    into the billboards: camera, camera targets, snow records, generator,
    ripple buffer, emblem, interpolated ornament positions and the place
    and scale of every stored matrix are the same in both orders. *)
Theorem camera_order_only_turns_billboards :
  forall (treeState : TreeState) (handData : HandData) (time delta : R)
         (sc : Scene),
    let a := sceneFrame true treeState handData time delta sc in
    let b := sceneFrame false treeState handData time delta sc in
    targetCameraRotation a = targetCameraRotation b /\
    sceneCamera a = sceneCamera b /\
    snowData a = snowData b /\ random a = random b /\
    map geometry (snowMesh a) = map geometry (snowMesh b) /\
    map geometry (meteorMesh a) = map geometry (meteorMesh b) /\
    rippleMesh a = rippleMesh b /\ rippleDummy a = rippleDummy b /\
    map layerCore (ornamentSets a) = map layerCore (ornamentSets b) /\
    starOpacity a = starOpacity b /\ starGroup a = starGroup b.
Proof.
  intros ts hd time delta sc a b. subst a b. unfold sceneFrame.
  rewrite (populationFrames_fields ts time delta (cameraFrame hd delta sc)).
  rewrite (cameraFrame_fields hd delta (populationFrames ts time delta sc)).
  rewrite (populationFrames_fields ts time delta sc).
  rewrite (cameraFrame_fields hd delta sc).
  cbn [targetCameraRotation sceneCamera random snowData snowMesh meteorData
       meteorMesh rippleData rippleDummy rippleMesh ornamentSets starOpacity
       starGroup].
  set (cam := sceneCamera sc).
  set (cam' := snd (CameraController.frame hd delta (targetCameraRotation sc)
                      cam)).
  split; [reflexivity |]. split; [reflexivity |].
  unfold Snowfall.frame.
  destruct (SnowProps.snow_loop_any_state (mkRootState time cam')
              (mkRootState time cam) delta (snowData sc) (random sc))
    as [Hd Hg].
  split; [exact Hd |]. split; [exact Hg |].
  split; [apply snow_loop_camera |].
  split.
  { unfold MeteorShower.frame. rewrite !map_map. apply map_ext.
    intros m. reflexivity. }
  split; [reflexivity |]. split; [reflexivity |].
  split.
  { rewrite !map_map. apply map_ext. intros l. apply layer_camera. }
  split; reflexivity.
Qed.

(** X27: a frame never changes the seed data of meteors, ripples and
    ornaments nor the number of layers, keeps the number of flakes, and
    leaves in each buffer one matrix per instance of its population. *)
Theorem scene_frame_keeps_populations :
  forall (order : bool) (treeState : TreeState) (handData : HandData)
         (time delta : R) (sc : Scene),
    let sc' := sceneFrame order treeState handData time delta sc in
    meteorData sc' = meteorData sc /\
    rippleData sc' = rippleData sc /\
    map (fun l => fst (fst l)) (ornamentSets sc')
      = map (fun l => fst (fst l)) (ornamentSets sc) /\
    List.length (snowData sc') = List.length (snowData sc) /\
    List.length (snowMesh sc') = List.length (snowData sc) /\
    List.length (meteorMesh sc') = List.length (meteorData sc) /\
    List.length (rippleMesh sc') = List.length (rippleData sc).
Proof.
  intros order ts hd time delta sc sc'. subst sc'. unfold sceneFrame.
  assert (Hlayers : forall state l,
            fst (fst (layerFrame ts state delta l)) = fst (fst l)).
  { intros state [[data st] ms]. unfold layerFrame.
    destruct (EmojiLayer.frame ts state delta data st). reflexivity. }
  destruct order.
  - rewrite (populationFrames_fields ts time delta (cameraFrame hd delta sc)).
    rewrite (cameraFrame_fields hd delta sc).
    cbn [targetCameraRotation sceneCamera random snowData snowMesh meteorData
         meteorMesh rippleData rippleDummy rippleMesh ornamentSets starOpacity
         starGroup].
    unfold Snowfall.frame, MeteorShower.frame, BaseRipple.frame.
    split; [reflexivity |]. split; [reflexivity |].
    split; [rewrite map_map; apply map_ext; intros l; apply Hlayers |].
    split; [apply snow_loop_shape |]. split; [apply snow_loop_shape |].
    split; [apply length_map | apply RippleProps.ripple_loop_length].
  - rewrite (cameraFrame_fields hd delta (populationFrames ts time delta sc)).
    rewrite (populationFrames_fields ts time delta sc).
    cbn [targetCameraRotation sceneCamera random snowData snowMesh meteorData
         meteorMesh rippleData rippleDummy rippleMesh ornamentSets starOpacity
         starGroup].
    unfold Snowfall.frame, MeteorShower.frame, BaseRipple.frame.
    split; [reflexivity |]. split; [reflexivity |].
    split; [rewrite map_map; apply map_ext; intros l; apply Hlayers |].
    split; [apply snow_loop_shape |]. split; [apply snow_loop_shape |].
    split; [apply length_map | apply RippleProps.ripple_loop_length].
Qed.

End SceneProps.
